(** * A shallow embedding of the hardened query builder (package [query])

    The development follows [query.go] (the variant with the identifier
    safety layer): Go strings are byte strings ([string], one [ascii] per
    byte), slices are lists, the fluent builder is a record threaded through
    its declaration methods, and [Build] is a function from the record to a
    [Query]. *)

From Stdlib Require Import String Ascii List ZArith Lia Bool Arith.
From Stdlib Require Import DecimalString DecimalNat.
Import ListNotations.

Local Open Scope list_scope.
Local Open Scope string_scope.

(* ===================================================================== *)
(** ** The functions of Go's [strings], [fmt] and [regexp] the package calls *)
(* ===================================================================== *)

(** The double quote character, and the two strings made of it. *)
Definition dq : string := String "034"%char EmptyString.
Definition dqdq : string := dq ++ dq.

Module strings.

(** [strings.HasPrefix s prefix]. *)
Fixpoint HasPrefix (s pre : string) : bool :=
  match pre with
  | EmptyString => true
  | String c pre' =>
      match s with
      | EmptyString => false
      | String a s' => Ascii.eqb a c && HasPrefix s' pre'
      end
  end.

(** [strings.Contains s substr]. *)
Fixpoint Contains (s substr : string) : bool :=
  HasPrefix s substr ||
  match s with
  | EmptyString => false
  | String _ s' => Contains s' substr
  end.

(** [strings.Join elems sep]. *)
Definition Join (elems : list string) (sep : string) : string :=
  String.concat sep elems.

(** [strings.ReplaceAll s old new] for a non-empty [old] (the package
    only calls it with the keywords and with the double quote): the
    occurrences are replaced from left to right and do not overlap.
    [skip] counts the bytes of the occurrence still to be dropped. *)
Fixpoint replaceFrom (skip : nat) (s old new : string) : string :=
  match s with
  | EmptyString => EmptyString
  | String a s' =>
      match skip with
      | S k => replaceFrom k s' old new
      | O =>
          if HasPrefix s old
          then new ++ replaceFrom (String.length old - 1) s' old new
          else String a (replaceFrom 0 s' old new)
      end
  end.

Definition ReplaceAll (s old new : string) : string :=
  replaceFrom 0 s old new.

(** Lower-casing of one byte of the ASCII range. *)
Definition lowerByte (a : ascii) : ascii :=
  let n := nat_of_ascii a in
  if ((65 <=? n) && (n <=? 90))%nat then ascii_of_nat (n + 32) else a.

(** [strings.ToLower].  Go lower-cases rune by rune.  The bytes [A]..[Z]
    become [a]..[z]; exactly two other runes have an ASCII lower case,
    U+0130 (bytes C4 B0, lower case [i]) and U+212A (bytes E2 84 AA, lower
    case [k]).  Every other rune outside ASCII is mapped by Go to a rune
    outside ASCII, whose encoding has no ASCII byte; the model leaves those
    bytes as they are.  The package only searches the result for ASCII
    patterns, for which the two agree. *)
Fixpoint ToLower (s : string) : string :=
  match s with
  | EmptyString => EmptyString
  | String a s' =>
      match s' with
      | String b s'' =>
          if Ascii.eqb a "196" && Ascii.eqb b "176"
          then String "i" (ToLower s'')
          else
            match s'' with
            | String c s''' =>
                if Ascii.eqb a "226" && Ascii.eqb b "132" && Ascii.eqb c "170"
                then String "k" (ToLower s''')
                else String (lowerByte a) (ToLower s')
            | EmptyString => String (lowerByte a) (ToLower s')
            end
      | EmptyString => String (lowerByte a) EmptyString
      end
  end.

(** White space of the ASCII range, as [strings.TrimSpace] sees it. *)
Definition isSpace (a : ascii) : bool :=
  let n := nat_of_ascii a in
  (((9 <=? n) && (n <=? 13)) || (n =? 32))%nat.

Fixpoint trimLeft (s : string) : string :=
  match s with
  | String a s' => if isSpace a then trimLeft s' else s
  | EmptyString => EmptyString
  end.

Fixpoint trimRight (s : string) : string :=
  match s with
  | EmptyString => EmptyString
  | String a s' =>
      match trimRight s' with
      | EmptyString => if isSpace a then EmptyString else String a EmptyString
      | r => String a r
      end
  end.

(** [strings.TrimSpace] on the ASCII range; its only caller passes a
    string already reduced to letters, digits, [_], [.] and [*]. *)
Definition TrimSpace (s : string) : string := trimRight (trimLeft s).

End strings.

Module fmt.

(** [fmt.Sprintf("%d", n)] for a counter and for an [int]. *)
Definition itoa (n : nat) : string := NilEmpty.string_of_uint (Nat.to_uint n).
Definition itoaZ (z : Z) : string := NilEmpty.string_of_int (Z.to_int z).

End fmt.

Module regexp.

(** A literal alternative of a pattern compiled with the flag [(?i)],
    anchored at the head of [s]: the number of bytes matched.  A letter
    matches itself and its upper case; Go's case folding also lets [s]
    match the rune U+017F (bytes C5 BF).  No other letter of the patterns
    of this package has a third variant. *)
Fixpoint matchFold (pat s : string) : option nat :=
  match pat with
  | EmptyString => Some 0
  | String c pat' =>
      match s with
      | EmptyString => None
      | String a s' =>
          if Ascii.eqb (strings.lowerByte a) c
          then option_map S (matchFold pat' s')
          else if Ascii.eqb c "s" && Ascii.eqb a "197" then
            match s' with
            | String b s'' =>
                if Ascii.eqb b "191"
                then option_map (fun n => S (S n)) (matchFold pat' s'')
                else None
            | EmptyString => None
            end
          else None
      end
  end.

(** An alternation [(a1|a2|...)]: Go's matcher prefers the first
    alternative that matches at the position. *)
Fixpoint matchAlt (alts : list string) (s : string) : option nat :=
  match alts with
  | [] => None
  | p :: rest =>
      match matchFold p s with
      | Some n => Some n
      | None => matchAlt rest s
      end
  end.

(** [re.ReplaceAllString(s, "")] for such an alternation: the leftmost
    match is deleted and the scan resumes behind it, in one pass. *)
Fixpoint deleteMatches (alts : list string) (skip : nat) (s : string) : string :=
  match s with
  | EmptyString => EmptyString
  | String a s' =>
      match skip with
      | S k => deleteMatches alts k s'
      | O =>
          match matchAlt alts s with
          | Some (S k) => deleteMatches alts k s'
          | _ => String a (deleteMatches alts 0 s')
          end
      end
  end.

(** The character class [[a-zA-Z0-9_.*]]. *)
Definition isSimpleChar (a : ascii) : bool :=
  let n := nat_of_ascii a in
  (((97 <=? n) && (n <=? 122)) || ((65 <=? n) && (n <=? 90)) ||
   ((48 <=? n) && (n <=? 57)) || (n =? 95) || (n =? 46) || (n =? 42))%nat.

(** [re.ReplaceAllString(s, "")] for the negated class
    [[^a-zA-Z0-9_.*]]: every rune outside the class goes, and a rune
    outside ASCII has no byte inside it. *)
Fixpoint keepSimple (s : string) : string :=
  match s with
  | EmptyString => EmptyString
  | String a s' =>
      if isSimpleChar a then String a (keepSimple s') else keepSimple s'
  end.

End regexp.


(* ===================================================================== *)
(** ** Identifier safety layer *)
(* ===================================================================== *)

(** The alternation of [escapeIdentifier], in the order of the pattern. *)
Definition keywordAlternation : list string :=
  ["drop"; "delete"; "insert"; "update"; "create"; "alter"; "truncate";
   "exec"; "execute"].

(** [escapeIdentifier]: removes the matches of
    [(?i)(drop|delete|insert|update|create|alter|truncate|exec|execute)]. *)
Definition escapeIdentifier (identifier : string) : string :=
  let cleaned := regexp.deleteMatches keywordAlternation 0 identifier in
  cleaned.

(** [escapeSimpleIdentifier]: the loop over the blacklist tests the
    lower-cased text computed before the loop and replaces the keyword as
    written (lower case) in [cleaned]. *)
Definition escapeSimpleIdentifier (identifier : string) : string :=
  let cleaned := regexp.keepSimple identifier in
  let lower := strings.ToLower (strings.TrimSpace cleaned) in
  let blacklist := ["drop"; "delete"; "insert"; "update"; "create"; "alter";
                    "truncate"; "exec"; "execute"] in
  fold_left
    (fun cleaned keyword =>
       if strings.Contains lower keyword
       then strings.ReplaceAll cleaned keyword ""
       else cleaned)
    blacklist cleaned.

Definition dangerousPatterns : list string :=
  ["';"; dq ++ ";"; "--"; "/*"; "*/"; "drop"; "delete"; "insert";
   "update"; "create"; "alter"; "truncate"; "exec"; "execute";
   "union"; "select"; "into"; "from"; "where"; "join"].

(** [isValidIdentifier]. *)
Definition isValidIdentifier (identifier : string) : bool :=
  if String.eqb identifier "" then false
  else
    let lower := strings.ToLower identifier in
    negb (existsb (fun pattern => strings.Contains lower pattern)
                  dangerousPatterns).

(** [safeIdentifier]. *)
Definition safeIdentifier (identifier : string) : string :=
  if isValidIdentifier identifier
     && negb (strings.Contains identifier dq)
     && negb (strings.Contains identifier "'")
  then identifier
  else
    let escaped := escapeIdentifier identifier in
    let escaped := strings.ReplaceAll escaped dq dqdq in
    dq ++ escaped ++ dq.

(* ===================================================================== *)
(** ** The builder record and its declaration methods *)
(* ===================================================================== *)

(** [type ParameterStyle int]: any [int] can be passed to
    [ParameterPlaceholder]. *)
Definition ParameterStyle := Z.
Definition QuestionMark : ParameterStyle := 0%Z.
Definition DollarNumber : ParameterStyle := 1%Z.

(** [type QueryType int]; the field is unexported and only ever assigned
    one of the four constants. *)
Inductive QueryType := SelectQuery | InsertQuery | UpdateQuery | DeleteQuery.

(** The values bound to placeholders ([interface{}] in the source): the
    builder stores them and hands them back, it never inspects them. *)
Inductive Value :=
| VInt (z : Z)
| VStr (s : string)
| VBool (b : bool)
| VNil.

Record Query := mkQuery { SQL : string; Params : list Value }.

Definition Sql (q : Query) : string := SQL q.

Module WhereClause.
Record t := mk {
  Column : string;
  Operator : string;
  Value : Value;
  JoinType : string        (* and / or *)
}.
End WhereClause.

Module JoinClause.
Record t := mk {
  Type_ : string;          (* JOIN, LEFT JOIN, RIGHT JOIN, INNER JOIN, FULL JOIN *)
  Table : string;
  Alias : string;
  Condition : string
}.
End JoinClause.

Record QueryBuilder := mkBuilder {
  queryType : QueryType;
  table : string;
  tableAlias : string;
  columns : list string;
  whereClauses : list WhereClause.t;
  joinClauses : list JoinClause.t;
  order : string;
  limit : Z;
  offset : Z;
  paramStyle : ParameterStyle;
  insertColumns : list string;
  insertValues : list Value;
  updateColumns : list string;
  updateValues : list Value
}.

(** Field assignments [b.f = x]. *)
Definition set_queryType (x : QueryType) (b : QueryBuilder) :=
  let '(mkBuilder _ t ta c w j o l off ps ic iv uc uv) := b in
  mkBuilder x t ta c w j o l off ps ic iv uc uv.
Definition set_table (x : string) (b : QueryBuilder) :=
  let '(mkBuilder qt _ ta c w j o l off ps ic iv uc uv) := b in
  mkBuilder qt x ta c w j o l off ps ic iv uc uv.
Definition set_tableAlias (x : string) (b : QueryBuilder) :=
  let '(mkBuilder qt t _ c w j o l off ps ic iv uc uv) := b in
  mkBuilder qt t x c w j o l off ps ic iv uc uv.
Definition set_columns (x : list string) (b : QueryBuilder) :=
  let '(mkBuilder qt t ta _ w j o l off ps ic iv uc uv) := b in
  mkBuilder qt t ta x w j o l off ps ic iv uc uv.
Definition set_whereClauses (x : list WhereClause.t) (b : QueryBuilder) :=
  let '(mkBuilder qt t ta c _ j o l off ps ic iv uc uv) := b in
  mkBuilder qt t ta c x j o l off ps ic iv uc uv.
Definition set_joinClauses (x : list JoinClause.t) (b : QueryBuilder) :=
  let '(mkBuilder qt t ta c w _ o l off ps ic iv uc uv) := b in
  mkBuilder qt t ta c w x o l off ps ic iv uc uv.
Definition set_order (x : string) (b : QueryBuilder) :=
  let '(mkBuilder qt t ta c w j _ l off ps ic iv uc uv) := b in
  mkBuilder qt t ta c w j x l off ps ic iv uc uv.
Definition set_limit (x : Z) (b : QueryBuilder) :=
  let '(mkBuilder qt t ta c w j o _ off ps ic iv uc uv) := b in
  mkBuilder qt t ta c w j o x off ps ic iv uc uv.
Definition set_offset (x : Z) (b : QueryBuilder) :=
  let '(mkBuilder qt t ta c w j o l _ ps ic iv uc uv) := b in
  mkBuilder qt t ta c w j o l x ps ic iv uc uv.
Definition set_paramStyle (x : ParameterStyle) (b : QueryBuilder) :=
  let '(mkBuilder qt t ta c w j o l off _ ic iv uc uv) := b in
  mkBuilder qt t ta c w j o l off x ic iv uc uv.
Definition set_insertColumns (x : list string) (b : QueryBuilder) :=
  let '(mkBuilder qt t ta c w j o l off ps _ iv uc uv) := b in
  mkBuilder qt t ta c w j o l off ps x iv uc uv.
Definition set_insertValues (x : list Value) (b : QueryBuilder) :=
  let '(mkBuilder qt t ta c w j o l off ps ic _ uc uv) := b in
  mkBuilder qt t ta c w j o l off ps ic x uc uv.
Definition set_updateColumns (x : list string) (b : QueryBuilder) :=
  let '(mkBuilder qt t ta c w j o l off ps ic iv _ uv) := b in
  mkBuilder qt t ta c w j o l off ps ic iv x uv.
Definition set_updateValues (x : list Value) (b : QueryBuilder) :=
  let '(mkBuilder qt t ta c w j o l off ps ic iv uc _) := b in
  mkBuilder qt t ta c w j o l off ps ic iv uc x.

(** [NewQueryBuilder]: the fields it does not name hold Go's zero values. *)
Definition NewQueryBuilder : QueryBuilder :=
  {| queryType := SelectQuery;
     table := "";
     tableAlias := "";
     columns := ["*"];
     whereClauses := [];
     joinClauses := [];
     order := "";
     limit := 0;
     offset := 0;
     paramStyle := DollarNumber;
     insertColumns := [];
     insertValues := [];
     updateColumns := [];
     updateValues := [] |}.

(** The methods mutate the receiver and return it; here each one maps the
    record before the call to the record after it. *)

Definition ParameterPlaceholder (style : ParameterStyle) (b : QueryBuilder) :=
  set_paramStyle style b.

Definition Table (t : string) (b : QueryBuilder) := set_table t b.

Definition Select (cols : list string) (b : QueryBuilder) :=
  let b := set_queryType SelectQuery b in
  if (0 <? List.length cols)%nat then set_columns cols b else b.

(** A [map[string]interface{}] is walked by [range] in an order the
    runtime chooses: the argument [data] lists the entries in the order of
    that walk. *)
Definition appendPairs (data : list (string * Value))
    (cols : list string) (vals : list Value) : list string * list Value :=
  fold_left
    (fun acc entry => ((fst acc ++ [fst entry])%list, (snd acc ++ [snd entry])%list))
    data (cols, vals).

Definition Insert (data : list (string * Value)) (b : QueryBuilder) :=
  let b := set_queryType InsertQuery b in
  let cv := appendPairs data [] [] in
  set_insertValues (snd cv) (set_insertColumns (fst cv) b).

Definition InsertColumns (cols : list string) (b : QueryBuilder) :=
  let b := set_queryType InsertQuery b in
  set_insertColumns cols b.

Definition Values (vals : list Value) (b : QueryBuilder) :=
  set_insertValues vals b.

Definition Update (data : list (string * Value)) (b : QueryBuilder) :=
  let b := set_queryType UpdateQuery b in
  let cv := appendPairs data [] [] in
  set_updateValues (snd cv) (set_updateColumns (fst cv) b).

Definition Set_ (column : string) (value : Value) (b : QueryBuilder) :=
  let b := set_queryType UpdateQuery b in
  let b := set_updateColumns (updateColumns b ++ [column])%list b in
  set_updateValues (updateValues b ++ [value])%list b.

Definition Delete (b : QueryBuilder) := set_queryType DeleteQuery b.

Definition Where (column operator : string) (value : Value) (b : QueryBuilder) :=
  set_whereClauses
    (whereClauses b ++ [WhereClause.mk column operator value "and"])%list b.

Definition OrWhere (column operator : string) (value : Value) (b : QueryBuilder) :=
  set_whereClauses
    (whereClauses b ++ [WhereClause.mk column operator value "or"])%list b.

Definition OrderBy (o : string) (b : QueryBuilder) := set_order o b.
Definition Limit (l : Z) (b : QueryBuilder) := set_limit l b.
Definition Offset (o : Z) (b : QueryBuilder) := set_offset o b.

Definition addJoin (j : JoinClause.t) (b : QueryBuilder) :=
  set_joinClauses (joinClauses b ++ [j])%list b.

Definition Join (t condition : string) :=
  addJoin (JoinClause.mk "JOIN" t "" condition).
Definition LeftJoin (t condition : string) :=
  addJoin (JoinClause.mk "LEFT JOIN" t "" condition).
Definition RightJoin (t condition : string) :=
  addJoin (JoinClause.mk "RIGHT JOIN" t "" condition).
Definition InnerJoin (t condition : string) :=
  addJoin (JoinClause.mk "INNER JOIN" t "" condition).
Definition FullJoin (t condition : string) :=
  addJoin (JoinClause.mk "FULL JOIN" t "" condition).

Definition JoinAs (t alias condition : string) :=
  addJoin (JoinClause.mk "JOIN" t alias condition).
Definition LeftJoinAs (t alias condition : string) :=
  addJoin (JoinClause.mk "LEFT JOIN" t alias condition).
Definition RightJoinAs (t alias condition : string) :=
  addJoin (JoinClause.mk "RIGHT JOIN" t alias condition).
Definition InnerJoinAs (t alias condition : string) :=
  addJoin (JoinClause.mk "INNER JOIN" t alias condition).
Definition FullJoinAs (t alias condition : string) :=
  addJoin (JoinClause.mk "FULL JOIN" t alias condition).

Definition As (alias : string) (b : QueryBuilder) := set_tableAlias alias b.

(** A declaration call, and a chain of them on a builder. *)
Inductive Decl :=
| DParameterPlaceholder (style : ParameterStyle)
| DTable (t : string)
| DSelect (cols : list string)
| DInsert (data : list (string * Value))
| DInsertColumns (cols : list string)
| DValues (vals : list Value)
| DUpdate (data : list (string * Value))
| DSet (column : string) (value : Value)
| DDelete
| DWhere (column operator : string) (value : Value)
| DOrWhere (column operator : string) (value : Value)
| DOrderBy (o : string)
| DLimit (l : Z)
| DOffset (o : Z)
| DJoin (t condition : string)
| DLeftJoin (t condition : string)
| DRightJoin (t condition : string)
| DInnerJoin (t condition : string)
| DFullJoin (t condition : string)
| DJoinAs (t alias condition : string)
| DLeftJoinAs (t alias condition : string)
| DRightJoinAs (t alias condition : string)
| DInnerJoinAs (t alias condition : string)
| DFullJoinAs (t alias condition : string)
| DAs (alias : string).

Definition call (d : Decl) : QueryBuilder -> QueryBuilder :=
  match d with
  | DParameterPlaceholder style => ParameterPlaceholder style
  | DTable t => Table t
  | DSelect cols => Select cols
  | DInsert data => Insert data
  | DInsertColumns cols => InsertColumns cols
  | DValues vals => Values vals
  | DUpdate data => Update data
  | DSet column value => Set_ column value
  | DDelete => Delete
  | DWhere c o v => Where c o v
  | DOrWhere c o v => OrWhere c o v
  | DOrderBy o => OrderBy o
  | DLimit l => Limit l
  | DOffset o => Offset o
  | DJoin t c => Join t c
  | DLeftJoin t c => LeftJoin t c
  | DRightJoin t c => RightJoin t c
  | DInnerJoin t c => InnerJoin t c
  | DFullJoin t c => FullJoin t c
  | DJoinAs t a c => JoinAs t a c
  | DLeftJoinAs t a c => LeftJoinAs t a c
  | DRightJoinAs t a c => RightJoinAs t a c
  | DInnerJoinAs t a c => InnerJoinAs t a c
  | DFullJoinAs t a c => FullJoinAs t a c
  | DAs a => As a
  end.

Definition chain (ds : list Decl) (b : QueryBuilder) : QueryBuilder :=
  fold_left (fun b d => call d b) ds b.

(* ===================================================================== *)
(** ** Rendering *)
(* ===================================================================== *)

(** [getPlaceholder]: the cases [DollarNumber] and [default] are the same. *)
Definition getPlaceholder (b : QueryBuilder) (index : nat) : string :=
  if (paramStyle b =? QuestionMark)%Z then "?"
  else "$" ++ fmt.itoa index.

(** The loop of [buildWhereClause]: [i] is the index of [range], [query]
    the text written so far, [params] and [paramCount] the two
    accumulators of the source. *)
Fixpoint whereLoop (b : QueryBuilder) (ws : list WhereClause.t) (i : nat)
    (query : string) (params : list Value) (paramCount : nat)
    : string * list Value * nat :=
  match ws with
  | [] => (query, params, paramCount)
  | w :: rest =>
      let query :=
        if (0 <? i)%nat then query ++ (" " ++ WhereClause.JoinType w ++ " ")
        else query in
      let paramCount := S paramCount in
      let query := query ++ safeIdentifier (WhereClause.Column w) in
      let query :=
        query ++ (" " ++ escapeIdentifier (WhereClause.Operator w) ++ " "
                  ++ getPlaceholder b paramCount) in
      let params := (params ++ [WhereClause.Value w])%list in
      whereLoop b rest (S i) query params paramCount
  end.

(** [buildWhereClause]. *)
Definition buildWhereClause (b : QueryBuilder) (paramCount : nat)
    : string * list Value * nat :=
  whereLoop b (whereClauses b) 0 " where " [] paramCount.

(** The loop over [b.joinClauses] in [buildSelect]. *)
Definition writeJoin (query : string) (join : JoinClause.t) : string :=
  let query := query ++ " " in
  let query := query ++ JoinClause.Type_ join in
  let query := query ++ " " in
  let query := query ++ safeIdentifier (JoinClause.Table join) in
  let query :=
    if negb (String.eqb (JoinClause.Alias join) "")
    then (query ++ " as ") ++ safeIdentifier (JoinClause.Alias join)
    else query in
  let query := query ++ " on " in
  query ++ escapeIdentifier (JoinClause.Condition join).

(** The blocks shared by the renderers: WHERE, ORDER BY, LIMIT, OFFSET. *)
Definition writeWhere (b : QueryBuilder)
    (st : string * list Value * nat) : string * list Value * nat :=
  let '(query, params, paramCount) := st in
  if (0 <? List.length (whereClauses b))%nat then
    let '(whereSQL, whereParams, count) := buildWhereClause b paramCount in
    (query ++ whereSQL, (params ++ whereParams)%list, count)
  else (query, params, paramCount).

Definition writeOrder (b : QueryBuilder) (query : string) : string :=
  if negb (String.eqb (order b) "")
  then (query ++ " order by ") ++ safeIdentifier (order b)
  else query.

Definition writeLimit (b : QueryBuilder) (query : string) : string :=
  if (0 <? limit b)%Z then query ++ (" limit " ++ fmt.itoaZ (limit b)) else query.

Definition writeOffset (b : QueryBuilder) (query : string) : string :=
  if (0 <? offset b)%Z then query ++ (" offset " ++ fmt.itoaZ (offset b)) else query.

(** [buildSelect]. *)
Definition buildSelect (b : QueryBuilder) : Query :=
  let query := "" in
  let params := [] in
  let paramCount := 0 in
  let query := query ++ "select " in
  let safeColumns := map safeIdentifier (columns b) in
  let query := query ++ strings.Join safeColumns ", " in
  let query := query ++ " from " in
  let query := query ++ safeIdentifier (table b) in
  let query :=
    if negb (String.eqb (tableAlias b) "")
    then (query ++ " as ") ++ safeIdentifier (tableAlias b)
    else query in
  let query := fold_left writeJoin (joinClauses b) query in
  let '(query, params, paramCount) := writeWhere b (query, params, paramCount) in
  let query := writeOrder b query in
  let query := writeLimit b query in
  let query := writeOffset b query in
  mkQuery query params.

(** [buildInsert]. *)
Definition buildInsert (b : QueryBuilder) : Query :=
  let query := "" in
  let params := [] in
  let query := query ++ "insert into " in
  let query := query ++ safeIdentifier (table b) in
  if (0 <? List.length (insertColumns b))%nat then
    let query := query ++ " (" in
    let safeColumns := map safeIdentifier (insertColumns b) in
    let query := query ++ strings.Join safeColumns ", " in
    let query := query ++ ") values (" in
    let placeholders :=
      map (fun i => getPlaceholder b (i + 1))
          (seq 0 (List.length (insertValues b))) in
    let query := query ++ strings.Join placeholders ", " in
    let query := query ++ ")" in
    let params := (params ++ insertValues b)%list in
    mkQuery query params
  else mkQuery query params.

(** The loop filling [setClauses] in [buildUpdate]; slot [i] is written
    at iteration [i], so the slice grows at its end. *)
Fixpoint setLoop (b : QueryBuilder) (cols : list string)
    (setClauses : list string) (paramCount : nat) : list string * nat :=
  match cols with
  | [] => (setClauses, paramCount)
  | column :: rest =>
      let paramCount := S paramCount in
      let clause := safeIdentifier column ++ " = " ++ getPlaceholder b paramCount in
      setLoop b rest (setClauses ++ [clause])%list paramCount
  end.

(** [buildUpdate]. *)
Definition buildUpdate (b : QueryBuilder) : Query :=
  let query := "" in
  let params := [] in
  let paramCount := 0 in
  let query := query ++ "update " in
  let query := query ++ safeIdentifier (table b) in
  let query := query ++ " set " in
  let '(setClauses, paramCount) := setLoop b (updateColumns b) [] paramCount in
  let query := query ++ strings.Join setClauses ", " in
  let params := (params ++ updateValues b)%list in
  let '(query, params, paramCount) := writeWhere b (query, params, paramCount) in
  let query := writeOrder b query in
  let query := writeLimit b query in
  mkQuery query params.

(** [buildDelete]. *)
Definition buildDelete (b : QueryBuilder) : Query :=
  let query := "" in
  let params := [] in
  let paramCount := 0 in
  let query := query ++ "delete from " in
  let query := query ++ safeIdentifier (table b) in
  let '(query, params, paramCount) := writeWhere b (query, params, paramCount) in
  let query := writeOrder b query in
  let query := writeLimit b query in
  mkQuery query params.

(** [Build]. *)
Definition Build (b : QueryBuilder) : Query :=
  match queryType b with
  | SelectQuery => buildSelect b
  | InsertQuery => buildInsert b
  | UpdateQuery => buildUpdate b
  | DeleteQuery => buildDelete b
  end.

(* ===================================================================== *)
(** ** The writes of a build, in emission order *)
(* ===================================================================== *)

(** What a renderer writes is literal text and placeholders, the latter
    each produced by one call [getPlaceholder index]. *)
Inductive piece :=
| Txt (s : string)
| Ph (index : nat).

Definition renderPiece (b : QueryBuilder) (p : piece) : string :=
  match p with
  | Txt s => s
  | Ph index => getPlaceholder b index
  end.

Fixpoint render (b : QueryBuilder) (ps : list piece) : string :=
  match ps with
  | [] => ""
  | p :: rest => renderPiece b p ++ render b rest
  end.

(** The ordinals of the placeholders of a trace, left to right. *)
Fixpoint ordinals (ps : list piece) : list nat :=
  match ps with
  | [] => []
  | Txt _ :: rest => ordinals rest
  | Ph index :: rest => index :: ordinals rest
  end.

(** Groups of pieces separated by a literal, as [strings.Join] does. *)
Fixpoint joinPieces (sep : string) (groups : list (list piece)) : list piece :=
  match groups with
  | [] => []
  | g :: rest =>
      match rest with
      | [] => g
      | _ :: _ => (g ++ Txt sep :: joinPieces sep rest)%list
      end
  end.

(** The predicates: [i] is the position in the list, [n] the number of
    placeholders written before. *)
Fixpoint wherePieces (ws : list WhereClause.t) (i n : nat) : list piece :=
  match ws with
  | [] => []
  | w :: rest =>
      ((if (0 <? i)%nat then [Txt (" " ++ WhereClause.JoinType w ++ " ")] else [])
       ++ [Txt (safeIdentifier (WhereClause.Column w));
           Txt (" " ++ escapeIdentifier (WhereClause.Operator w) ++ " ");
           Ph (S n)]
       ++ wherePieces rest (S i) (S n))%list
  end.

Definition whereTrace (b : QueryBuilder) (n : nat) : list piece :=
  if (0 <? List.length (whereClauses b))%nat
  then Txt " where " :: wherePieces (whereClauses b) 0 n
  else [].

Definition orderTrace (b : QueryBuilder) : list piece :=
  if negb (String.eqb (order b) "")
  then [Txt " order by "; Txt (safeIdentifier (order b))]
  else [].

Definition limitTrace (b : QueryBuilder) : list piece :=
  if (0 <? limit b)%Z then [Txt (" limit " ++ fmt.itoaZ (limit b))] else [].

Definition offsetTrace (b : QueryBuilder) : list piece :=
  if (0 <? offset b)%Z then [Txt (" offset " ++ fmt.itoaZ (offset b))] else [].

Definition aliasTrace (b : QueryBuilder) : list piece :=
  if negb (String.eqb (tableAlias b) "")
  then [Txt " as "; Txt (safeIdentifier (tableAlias b))]
  else [].

(** The text one join contributes. *)
Definition joinFragment (j : JoinClause.t) : string :=
  " " ++ JoinClause.Type_ j ++ " " ++ safeIdentifier (JoinClause.Table j)
  ++ (if String.eqb (JoinClause.Alias j) "" then ""
      else " as " ++ safeIdentifier (JoinClause.Alias j))
  ++ " on " ++ escapeIdentifier (JoinClause.Condition j).

(** The SET clause: column [k] (from 1) is followed by placeholder [k]. *)
Definition setPieces (b : QueryBuilder) : list piece :=
  joinPieces ", "
    (map (fun ck => [Txt (safeIdentifier (fst ck) ++ " = "); Ph (snd ck)])
         (combine (updateColumns b) (seq 1 (List.length (updateColumns b))))).

(** The VALUES list: one placeholder per insert value. *)
Definition valuePieces (b : QueryBuilder) : list piece :=
  joinPieces ", "
    (map (fun k => [Ph k]) (seq 1 (List.length (insertValues b)))).

Definition traceSelect (b : QueryBuilder) : list piece :=
  ([Txt "select "; Txt (strings.Join (map safeIdentifier (columns b)) ", ");
    Txt " from "; Txt (safeIdentifier (table b))]
   ++ aliasTrace b
   ++ map (fun j => Txt (joinFragment j)) (joinClauses b)
   ++ whereTrace b 0 ++ orderTrace b ++ limitTrace b ++ offsetTrace b)%list.

Definition traceInsert (b : QueryBuilder) : list piece :=
  ([Txt "insert into "; Txt (safeIdentifier (table b))]
   ++ (if (0 <? List.length (insertColumns b))%nat
       then [Txt " ("; Txt (strings.Join (map safeIdentifier (insertColumns b)) ", ");
             Txt ") values ("] ++ valuePieces b ++ [Txt ")"]
       else []))%list.

Definition traceUpdate (b : QueryBuilder) : list piece :=
  ([Txt "update "; Txt (safeIdentifier (table b)); Txt " set "]
   ++ setPieces b
   ++ whereTrace b (List.length (updateColumns b))
   ++ orderTrace b ++ limitTrace b)%list.

Definition traceDelete (b : QueryBuilder) : list piece :=
  ([Txt "delete from "; Txt (safeIdentifier (table b))]
   ++ whereTrace b 0 ++ orderTrace b ++ limitTrace b)%list.

Definition trace (b : QueryBuilder) : list piece :=
  match queryType b with
  | SelectQuery => traceSelect b
  | InsertQuery => traceInsert b
  | UpdateQuery => traceUpdate b
  | DeleteQuery => traceDelete b
  end.

(** The two payload slices of an Update grow together. *)
Definition paired (b : QueryBuilder) : Prop :=
  List.length (updateColumns b) = List.length (updateValues b).

(* ===================================================================== *)
(** ** Vocabulary of the statements *)
(* ===================================================================== *)

(** Quoting as the second branch of [safeIdentifier] does it. *)
Definition quoted (s : string) : string := dq ++ strings.ReplaceAll s dq dqdq ++ dq.

(** [substr] (lower case) occurs in [s] in some mix of cases. *)
Definition ContainsFold (s substr : string) : bool :=
  strings.Contains (strings.ToLower s) substr.

(** An identifier with a denylisted keyword inside, in any mix of cases. *)
Definition hasKeyword (identifier : string) : bool :=
  existsb (fun kw => ContainsFold identifier kw) keywordAlternation.

(** The Select text before the joins and behind them. *)
Definition selectHead (b : QueryBuilder) : string :=
  "select " ++ strings.Join (map safeIdentifier (columns b)) ", "
  ++ " from " ++ safeIdentifier (table b)
  ++ (if String.eqb (tableAlias b) "" then ""
      else " as " ++ safeIdentifier (tableAlias b)).

Definition selectTail (b : QueryBuilder) : string :=
  render b (whereTrace b 0 ++ orderTrace b ++ limitTrace b ++ offsetTrace b)%list.

(** The Update text behind the WHERE clause. *)
Definition updateTail (b : QueryBuilder) : string :=
  render b (orderTrace b ++ limitTrace b)%list.

(** The joins a chain of calls declares, in the order of the calls. *)
Definition declaredJoin (d : Decl) : list JoinClause.t :=
  match d with
  | DJoin t c => [JoinClause.mk "JOIN" t "" c]
  | DLeftJoin t c => [JoinClause.mk "LEFT JOIN" t "" c]
  | DRightJoin t c => [JoinClause.mk "RIGHT JOIN" t "" c]
  | DInnerJoin t c => [JoinClause.mk "INNER JOIN" t "" c]
  | DFullJoin t c => [JoinClause.mk "FULL JOIN" t "" c]
  | DJoinAs t a c => [JoinClause.mk "JOIN" t a c]
  | DLeftJoinAs t a c => [JoinClause.mk "LEFT JOIN" t a c]
  | DRightJoinAs t a c => [JoinClause.mk "RIGHT JOIN" t a c]
  | DInnerJoinAs t a c => [JoinClause.mk "INNER JOIN" t a c]
  | DFullJoinAs t a c => [JoinClause.mk "FULL JOIN" t a c]
  | _ => []
  end.

Definition declaredJoins (ds : list Decl) : list JoinClause.t :=
  flat_map declaredJoin ds.

Definition joinKinds : list string :=
  ["JOIN"; "LEFT JOIN"; "RIGHT JOIN"; "INNER JOIN"; "FULL JOIN"].

(** The text of the SET entry of a column under [DollarNumber], and of
    the predicates from ordinal [k] on. *)
Definition setClauseText (column : string) (k : nat) : string :=
  safeIdentifier column ++ " = $" ++ fmt.itoa k.

Fixpoint setClausesText (cols : list string) (k : nat) : list string :=
  match cols with
  | [] => []
  | column :: rest => setClauseText column k :: setClausesText rest (S k)
  end.

Fixpoint predicatesText (ws : list WhereClause.t) (first : bool) (k : nat) : string :=
  match ws with
  | [] => ""
  | w :: rest =>
      (if first then "" else " " ++ WhereClause.JoinType w ++ " ")
      ++ safeIdentifier (WhereClause.Column w)
      ++ " " ++ escapeIdentifier (WhereClause.Operator w)
      ++ " $" ++ fmt.itoa k
      ++ predicatesText rest false (S k)
  end.

Definition whereText (ws : list WhereClause.t) (k : nat) : string :=
  match ws with
  | [] => ""
  | _ :: _ => " where " ++ predicatesText ws true k
  end.

(** *** Reading the placeholders back from a text *)

Definition isDigit (a : ascii) : bool :=
  let n := nat_of_ascii a in ((48 <=? n) && (n <=? 57))%nat.

Definition digitValue (a : ascii) : nat := nat_of_ascii a - 48.

Definition isDollar (a : ascii) : bool := Ascii.eqb a "$".

(** The tokens [$<digits>] of a text, left to right, each by the number
    its digits spell.  [cur] is the value read so far when the scan stands
    inside a token. *)
Fixpoint readOrdinalsFrom (cur : option nat) (s : string) : list nat :=
  match s with
  | EmptyString =>
      match cur with
      | Some v => [v]
      | None => []
      end
  | String a t =>
      match cur with
      | Some v =>
          if isDigit a
          then readOrdinalsFrom (Some (10 * v + digitValue a)) t
          else v :: readOrdinalsFrom (if isDollar a then Some 0 else None) t
      | None => readOrdinalsFrom (if isDollar a then Some 0 else None) t
      end
  end.

Definition readOrdinals (s : string) : list nat := readOrdinalsFrom None s.

(** A text without a dollar sign, and a record whose declared texts have
    none. *)
Fixpoint noDollar (s : string) : bool :=
  match s with
  | EmptyString => true
  | String a t => negb (isDollar a) && noDollar t
  end.

Definition noDollarWhere (w : WhereClause.t) : bool :=
  noDollar (WhereClause.Column w) && noDollar (WhereClause.Operator w)
  && noDollar (WhereClause.JoinType w).

Definition noDollarJoin (j : JoinClause.t) : bool :=
  noDollar (JoinClause.Type_ j) && noDollar (JoinClause.Table j)
  && noDollar (JoinClause.Alias j) && noDollar (JoinClause.Condition j).

Definition dollarFree (b : QueryBuilder) : bool :=
  noDollar (table b) && noDollar (tableAlias b)
  && forallb noDollar (columns b)
  && forallb noDollarWhere (whereClauses b)
  && forallb noDollarJoin (joinClauses b)
  && noDollar (order b)
  && forallb noDollar (insertColumns b)
  && forallb noDollar (updateColumns b).

(** A piece list that can follow a placeholder: it is empty or starts with
    a literal whose first character is neither a digit nor a dollar sign. *)
Definition headClean (ps : list piece) : Prop :=
  match ps with
  | [] => True
  | Txt (String c _) :: _ => isDigit c = false /\ isDollar c = false
  | _ => False
  end.

(** A trace whose literals hold no dollar sign and whose placeholders are
    each followed as [headClean] says. *)
Fixpoint readable (ps : list piece) : Prop :=
  match ps with
  | [] => True
  | Txt s :: rest => noDollar s = true /\ readable rest
  | Ph _ :: rest => headClean rest /\ readable rest
  end.

(** *** The safety layer as the specification words it *)

(** Strict policy: keep letters, digits, [_], [.] and [*], then strip every
    occurrence of a denylisted keyword, whatever its case. *)
Definition strictPolicy_spec (identifier : string) : string :=
  regexp.deleteMatches keywordAlternation 0 (regexp.keepSimple identifier).

(** strings.Join fragment with upper-case [AS] and [ON] and the strict policy on
    table and alias. *)
Definition joinFragment_spec (j : JoinClause.t) : string :=
  " " ++ JoinClause.Type_ j ++ " " ++ strictPolicy_spec (JoinClause.Table j)
  ++ (if String.eqb (JoinClause.Alias j) "" then ""
      else " AS " ++ strictPolicy_spec (JoinClause.Alias j))
  ++ " ON " ++ escapeIdentifier (JoinClause.Condition j).

(* ===================================================================== *)
(** ** Strings, traces and the loops *)
(* ===================================================================== *)

(* ===================================================================== *)
(** ** The two earlier variants of the package *)
(* ===================================================================== *)

(** The first variant of [query.go] has the record and the declaration
    methods of the hardened one, and the same [getPlaceholder]; its
    renderers write the declared texts as they are. *)
Module Plain.

(** The loop of [buildWhereClause]. *)
Fixpoint whereLoop (b : QueryBuilder) (ws : list WhereClause.t) (i : nat)
    (query : string) (params : list Value) (paramCount : nat)
    : string * list Value * nat :=
  match ws with
  | [] => (query, params, paramCount)
  | w :: rest =>
      let query :=
        if (0 <? i)%nat then query ++ (" " ++ WhereClause.JoinType w ++ " ")
        else query in
      let paramCount := S paramCount in
      let query := query ++ WhereClause.Column w in
      let query :=
        query ++ (" " ++ WhereClause.Operator w ++ " "
                  ++ getPlaceholder b paramCount) in
      let params := (params ++ [WhereClause.Value w])%list in
      whereLoop b rest (S i) query params paramCount
  end.

Definition buildWhereClause (b : QueryBuilder) (paramCount : nat)
    : string * list Value * nat :=
  whereLoop b (whereClauses b) 0 " where " [] paramCount.

Definition writeJoin (query : string) (join : JoinClause.t) : string :=
  let query := query ++ " " in
  let query := query ++ JoinClause.Type_ join in
  let query := query ++ " " in
  let query := query ++ JoinClause.Table join in
  let query :=
    if negb (String.eqb (JoinClause.Alias join) "")
    then (query ++ " as ") ++ JoinClause.Alias join
    else query in
  let query := query ++ " on " in
  query ++ JoinClause.Condition join.

Definition writeWhere (b : QueryBuilder)
    (st : string * list Value * nat) : string * list Value * nat :=
  let '(query, params, paramCount) := st in
  if (0 <? List.length (whereClauses b))%nat then
    let '(whereSQL, whereParams, count) := buildWhereClause b paramCount in
    (query ++ whereSQL, (params ++ whereParams)%list, count)
  else (query, params, paramCount).

Definition writeOrder (b : QueryBuilder) (query : string) : string :=
  if negb (String.eqb (order b) "")
  then (query ++ " order by ") ++ order b
  else query.

Definition buildSelect (b : QueryBuilder) : Query :=
  let query := "" in
  let params := [] in
  let paramCount := 0 in
  let query := query ++ "select " in
  let query := query ++ strings.Join (columns b) ", " in
  let query := query ++ " from " in
  let query := query ++ table b in
  let query :=
    if negb (String.eqb (tableAlias b) "")
    then (query ++ " as ") ++ tableAlias b
    else query in
  let query := fold_left writeJoin (joinClauses b) query in
  let '(query, params, paramCount) := writeWhere b (query, params, paramCount) in
  let query := writeOrder b query in
  let query := writeLimit b query in
  let query := writeOffset b query in
  mkQuery query params.

Definition buildInsert (b : QueryBuilder) : Query :=
  let query := "" in
  let params := [] in
  let query := query ++ "insert into " in
  let query := query ++ table b in
  if (0 <? List.length (insertColumns b))%nat then
    let query := query ++ " (" in
    let query := query ++ strings.Join (insertColumns b) ", " in
    let query := query ++ ") values (" in
    let placeholders :=
      map (fun i => getPlaceholder b (i + 1))
          (seq 0 (List.length (insertValues b))) in
    let query := query ++ strings.Join placeholders ", " in
    let query := query ++ ")" in
    let params := (params ++ insertValues b)%list in
    mkQuery query params
  else mkQuery query params.

Fixpoint setLoop (b : QueryBuilder) (cols : list string)
    (setClauses : list string) (paramCount : nat) : list string * nat :=
  match cols with
  | [] => (setClauses, paramCount)
  | column :: rest =>
      let paramCount := S paramCount in
      let clause := column ++ " = " ++ getPlaceholder b paramCount in
      setLoop b rest (setClauses ++ [clause])%list paramCount
  end.

Definition buildUpdate (b : QueryBuilder) : Query :=
  let query := "" in
  let params := [] in
  let paramCount := 0 in
  let query := query ++ "update " in
  let query := query ++ table b in
  let query := query ++ " set " in
  let '(setClauses, paramCount) := setLoop b (updateColumns b) [] paramCount in
  let query := query ++ strings.Join setClauses ", " in
  let params := (params ++ updateValues b)%list in
  let '(query, params, paramCount) := writeWhere b (query, params, paramCount) in
  let query := writeOrder b query in
  let query := writeLimit b query in
  mkQuery query params.

Definition buildDelete (b : QueryBuilder) : Query :=
  let query := "" in
  let params := [] in
  let paramCount := 0 in
  let query := query ++ "delete from " in
  let query := query ++ table b in
  let '(query, params, paramCount) := writeWhere b (query, params, paramCount) in
  let query := writeOrder b query in
  let query := writeLimit b query in
  mkQuery query params.

Definition Build (b : QueryBuilder) : Query :=
  match queryType b with
  | SelectQuery => buildSelect b
  | InsertQuery => buildInsert b
  | UpdateQuery => buildUpdate b
  | DeleteQuery => buildDelete b
  end.

End Plain.

(** The second variant of [query.go] builds Select statements only: a
    smaller record, eight declaration methods and one [Build]. *)
Module SelectOnly.

Record QueryBuilder := mkBuilder {
  table : string;
  columns : list string;
  whereClauses : list WhereClause.t;
  order : string;
  limit : Z;
  offset : Z;
  paramStyle : ParameterStyle
}.

Definition NewQueryBuilder : QueryBuilder :=
  {| table := ""; columns := ["*"]; whereClauses := []; order := "";
     limit := 0; offset := 0; paramStyle := DollarNumber |}.

Definition ParameterPlaceholder (style : ParameterStyle) (b : QueryBuilder) :=
  let '(mkBuilder t c w o l off _) := b in mkBuilder t c w o l off style.

Definition Table (x : string) (b : QueryBuilder) :=
  let '(mkBuilder _ c w o l off ps) := b in mkBuilder x c w o l off ps.

Definition Select (cols : list string) (b : QueryBuilder) :=
  if (0 <? List.length cols)%nat
  then let '(mkBuilder t _ w o l off ps) := b in mkBuilder t cols w o l off ps
  else b.

Definition Where (column operator : string) (value : Value) (b : QueryBuilder) :=
  let '(mkBuilder t c w o l off ps) := b in
  mkBuilder t c (w ++ [WhereClause.mk column operator value "and"])%list o l off ps.

Definition OrWhere (column operator : string) (value : Value) (b : QueryBuilder) :=
  let '(mkBuilder t c w o l off ps) := b in
  mkBuilder t c (w ++ [WhereClause.mk column operator value "or"])%list o l off ps.

Definition OrderBy (x : string) (b : QueryBuilder) :=
  let '(mkBuilder t c w _ l off ps) := b in mkBuilder t c w x l off ps.

Definition Limit (x : Z) (b : QueryBuilder) :=
  let '(mkBuilder t c w o _ off ps) := b in mkBuilder t c w o x off ps.

Definition Offset (x : Z) (b : QueryBuilder) :=
  let '(mkBuilder t c w o l _ ps) := b in mkBuilder t c w o l x ps.

Definition getPlaceholder (b : QueryBuilder) (index : nat) : string :=
  if (paramStyle b =? QuestionMark)%Z then "?"
  else "$" ++ fmt.itoa index.

(** The loop over the predicates, written inside [Build] in this
    variant. *)
Fixpoint whereLoop (b : QueryBuilder) (ws : list WhereClause.t) (i : nat)
    (query : string) (params : list Value) (paramCount : nat)
    : string * list Value * nat :=
  match ws with
  | [] => (query, params, paramCount)
  | w :: rest =>
      let query :=
        if (0 <? i)%nat then query ++ (" " ++ WhereClause.JoinType w ++ " ")
        else query in
      let paramCount := S paramCount in
      let query := query ++ WhereClause.Column w in
      let query :=
        query ++ (" " ++ WhereClause.Operator w ++ " "
                  ++ getPlaceholder b paramCount) in
      let params := (params ++ [WhereClause.Value w])%list in
      whereLoop b rest (S i) query params paramCount
  end.

Definition Build (b : QueryBuilder) : Query :=
  let query := "" in
  let params := [] in
  let paramCount := 0 in
  let query := query ++ "select " in
  let query := query ++ strings.Join (columns b) ", " in
  let query := query ++ " from " in
  let query := query ++ table b in
  let '(query, params, paramCount) :=
    if (0 <? List.length (whereClauses b))%nat
    then whereLoop b (whereClauses b) 0 (query ++ " where ") params paramCount
    else (query, params, paramCount) in
  let query :=
    if negb (String.eqb (order b) "")
    then (query ++ " order by ") ++ order b
    else query in
  let query :=
    if (0 <? limit b)%Z then query ++ (" limit " ++ fmt.itoaZ (limit b))
    else query in
  let query :=
    if (0 <? offset b)%Z then query ++ (" offset " ++ fmt.itoaZ (offset b))
    else query in
  mkQuery query params.

End SelectOnly.

(* ===================================================================== *)
(** ** Vocabulary of the further properties *)
(* ===================================================================== *)

(** A text of the ASCII range. *)
Fixpoint isASCII (s : string) : bool :=
  match s with
  | EmptyString => true
  | String a t => (nat_of_ascii a <? 128)%nat && isASCII t
  end.

(** The occurrences of a byte in a text. *)
Fixpoint countChar (c : ascii) (s : string) : nat :=
  match s with
  | EmptyString => 0
  | String a t => (if Ascii.eqb a c then 1 else 0) + countChar c t
  end.

Fixpoint occurs (c : ascii) (s : string) : bool :=
  match s with
  | EmptyString => false
  | String a t => Ascii.eqb a c || occurs c t
  end.

(** A byte no keyword match can cover: neither a letter of a keyword, in
    either case, nor one of the two bytes of U+017F. *)
Definition inertChar (c : ascii) : bool :=
  negb (existsb (occurs (strings.lowerByte c)) keywordAlternation)
  && negb (Ascii.eqb c "197") && negb (Ascii.eqb c "191").

(** Some alternative matches somewhere in the text. *)
Fixpoint matchesSomewhere (alts : list string) (s : string) : bool :=
  match regexp.matchAlt alts s with
  | Some (S _) => true
  | _ =>
      match s with
      | EmptyString => false
      | String _ t => matchesSomewhere alts t
      end
  end.

(** [sub] is what is left of [s] when some of its bytes are deleted:
    nothing is added, altered or moved. *)
Fixpoint isSubseq (sub s : string) : bool :=
  match s with
  | EmptyString =>
      match sub with
      | EmptyString => true
      | String _ _ => false
      end
  | String a t =>
      match sub with
      | EmptyString => true
      | String c sub' =>
          if Ascii.eqb a c then isSubseq sub' t else isSubseq sub t
      end
  end.

(** Every double quote of the text stands in a pair. *)
Fixpoint pairedQuotes (s : string) : bool :=
  match s with
  | EmptyString => true
  | String a t =>
      if Ascii.eqb a "034" then
        match t with
        | String b t' => Ascii.eqb b "034" && pairedQuotes t'
        | EmptyString => false
        end
      else pairedQuotes t
  end.

(** A text made of letters, digits, [_], [.] and [*] only. *)
Fixpoint allSimple (s : string) : bool :=
  match s with
  | EmptyString => true
  | String a t => regexp.isSimpleChar a && allSimple t
  end.

(** The test of [safeIdentifier] for the pass-through. *)
Definition passes (identifier : string) : bool :=
  isValidIdentifier identifier
  && negb (strings.Contains identifier dq)
  && negb (strings.Contains identifier "'").

(** A text [escapeIdentifier] has nothing to delete from. *)
Definition keywordFree (s : string) : bool := isASCII s && negb (hasKeyword s).

(** A record whose texts the hardened renderers write as declared:
    identifiers pass the test (alias and order may also be empty), and
    operators and join conditions are keyword free. *)
Definition passesOrEmpty (s : string) : bool := String.eqb s "" || passes s.

Definition plainWhere (w : WhereClause.t) : bool :=
  passes (WhereClause.Column w) && keywordFree (WhereClause.Operator w).

Definition plainJoin (j : JoinClause.t) : bool :=
  passes (JoinClause.Table j) && passesOrEmpty (JoinClause.Alias j)
  && keywordFree (JoinClause.Condition j).

Definition plainTexts (b : QueryBuilder) : bool :=
  passes (table b) && passesOrEmpty (tableAlias b)
  && forallb passes (columns b)
  && forallb plainWhere (whereClauses b)
  && forallb plainJoin (joinClauses b)
  && passesOrEmpty (order b)
  && forallb passes (insertColumns b)
  && forallb passes (updateColumns b).

(** The predicates a chain of calls declares, in the order of the calls,
    and the statement kind its calls leave behind. *)
Definition declaredWhere (d : Decl) : list WhereClause.t :=
  match d with
  | DWhere c o v => [WhereClause.mk c o v "and"]
  | DOrWhere c o v => [WhereClause.mk c o v "or"]
  | _ => []
  end.

Definition declaredWheres (ds : list Decl) : list WhereClause.t :=
  flat_map declaredWhere ds.

Definition declaredKind (d : Decl) : option QueryType :=
  match d with
  | DSelect _ => Some SelectQuery
  | DInsert _ | DInsertColumns _ => Some InsertQuery
  | DUpdate _ | DSet _ _ => Some UpdateQuery
  | DDelete => Some DeleteQuery
  | _ => None
  end.

Definition lastKind (ds : list Decl) (k : QueryType) : QueryType :=
  fold_left (fun k d => match declaredKind d with Some k' => k' | None => k end)
            ds k.

(** The select-only record inside the full one. *)
Definition ofSelectOnly (sb : SelectOnly.QueryBuilder) : QueryBuilder :=
  {| queryType := SelectQuery;
     table := SelectOnly.table sb;
     tableAlias := "";
     columns := SelectOnly.columns sb;
     whereClauses := SelectOnly.whereClauses sb;
     joinClauses := [];
     order := SelectOnly.order sb;
     limit := SelectOnly.limit sb;
     offset := SelectOnly.offset sb;
     paramStyle := SelectOnly.paramStyle sb;
     insertColumns := [];
     insertValues := [];
     updateColumns := [];
     updateValues := [] |}.

Arguments safeIdentifier : simpl never.
Arguments escapeIdentifier : simpl never.
Arguments getPlaceholder : simpl never.
Arguments fmt.itoa : simpl never.
Arguments fmt.itoaZ : simpl never.

Section StringFacts.

Lemma sapp_assoc (a b c : string) : (a ++ b) ++ c = a ++ (b ++ c).
Proof. induction a as [|x a IH]; simpl; [reflexivity | now rewrite IH]. Qed.

Lemma sapp_nil_r (a : string) : a ++ "" = a.
Proof. induction a as [|x a IH]; simpl; [reflexivity | now rewrite IH]. Qed.

Lemma slength_app (a b : string) :
  String.length (a ++ b) = String.length a + String.length b.
Proof. induction a as [|x a IH]; simpl; [reflexivity | now rewrite IH]. Qed.

End StringFacts.

Section Traces.

Variable b : QueryBuilder.

Lemma render_app (p q : list piece) :
  render b (p ++ q) = render b p ++ render b q.
Proof.
  induction p as [|x p IH]; simpl; [reflexivity|].
  now rewrite IH, sapp_assoc.
Qed.

Lemma ordinals_app (p q : list piece) :
  ordinals (p ++ q) = (ordinals p ++ ordinals q)%list.
Proof.
  induction p as [|[s|k] p IH]; simpl; [reflexivity | exact IH | now rewrite IH].
Qed.

Lemma render_joinPieces (sep : string) (gs : list (list piece)) :
  render b (joinPieces sep gs) = strings.Join (map (render b) gs) sep.
Proof.
  unfold Join.
  induction gs as [|g [|g' rest] IH]; [reflexivity | reflexivity |].
  change (joinPieces sep (g :: g' :: rest))
    with (g ++ Txt sep :: joinPieces sep (g' :: rest))%list.
  rewrite render_app. cbn [render renderPiece]. rewrite IH. reflexivity.
Qed.

Lemma ordinals_joinPieces (sep : string) (gs : list (list piece)) :
  ordinals (joinPieces sep gs) = flat_map ordinals gs.
Proof.
  induction gs as [|g [|g' rest] IH]; [reflexivity | |].
  - simpl. now rewrite app_nil_r.
  - change (joinPieces sep (g :: g' :: rest))
      with (g ++ Txt sep :: joinPieces sep (g' :: rest))%list.
    rewrite ordinals_app. cbn [ordinals]. rewrite IH. reflexivity.
Qed.

Lemma ordinals_wherePieces (ws : list WhereClause.t) :
  forall i n, ordinals (wherePieces ws i n) = seq (S n) (List.length ws).
Proof.
  induction ws as [|w ws IH]; intros i n; [reflexivity|].
  cbn [wherePieces]. rewrite ordinals_app.
  destruct (0 <? i)%nat; cbn; now rewrite IH.
Qed.

Lemma whereLoop_spec (ws : list WhereClause.t) :
  forall i query params paramCount,
    whereLoop b ws i query params paramCount
    = (query ++ render b (wherePieces ws i paramCount),
       (params ++ map WhereClause.Value ws)%list,
       paramCount + List.length ws).
Proof.
  induction ws as [|w ws IH]; intros i query params paramCount.
  - cbn. now rewrite sapp_nil_r, app_nil_r, Nat.add_0_r.
  - cbn [whereLoop]. rewrite IH. cbn [wherePieces map List.length].
    rewrite render_app, <- app_assoc, Nat.add_succ_r.
    do 2 f_equal.
    destruct (0 <? i)%nat; cbn [render renderPiece List.app];
      repeat rewrite sapp_assoc; cbn [append]; rewrite ?sapp_assoc;
      reflexivity.
Qed.

End Traces.

Section Renderers.

Variable b : QueryBuilder.

Lemma writeJoin_spec (query : string) (j : JoinClause.t) :
  writeJoin query j = query ++ joinFragment j.
Proof.
  unfold writeJoin, joinFragment.
  destruct (String.eqb (JoinClause.Alias j) ""); cbn [negb];
    repeat rewrite sapp_assoc; reflexivity.
Qed.

Lemma fold_writeJoin (js : list JoinClause.t) :
  forall query,
    fold_left writeJoin js query
    = query ++ render b (map (fun j => Txt (joinFragment j)) js).
Proof.
  induction js as [|j js IH]; intros query; cbn [fold_left map render renderPiece].
  - now rewrite sapp_nil_r.
  - now rewrite IH, writeJoin_spec, sapp_assoc.
Qed.

Lemma writeWhere_spec (query : string) (params : list Value) (n : nat) :
  writeWhere b (query, params, n)
  = (query ++ render b (whereTrace b n),
     (params ++ map WhereClause.Value (whereClauses b))%list,
     n + List.length (whereClauses b)).
Proof.
  unfold writeWhere, whereTrace, buildWhereClause.
  destruct (whereClauses b) as [|w ws] eqn:E.
  - cbn. now rewrite sapp_nil_r, app_nil_r, Nat.add_0_r.
  - change (0 <? List.length (w :: ws))%nat with true. cbv iota.
    rewrite whereLoop_spec. cbn [render renderPiece List.app]. reflexivity.
Qed.

Lemma writeOrder_spec (query : string) :
  writeOrder b query = query ++ render b (orderTrace b).
Proof.
  unfold writeOrder, orderTrace.
  destruct (String.eqb (order b) ""); cbn [negb render renderPiece].
  - now rewrite sapp_nil_r.
  - now rewrite sapp_assoc, sapp_nil_r.
Qed.

Lemma writeLimit_spec (query : string) :
  writeLimit b query = query ++ render b (limitTrace b).
Proof.
  unfold writeLimit, limitTrace.
  destruct (0 <? limit b)%Z; cbn [render renderPiece]; now rewrite sapp_nil_r.
Qed.

Lemma writeOffset_spec (query : string) :
  writeOffset b query = query ++ render b (offsetTrace b).
Proof.
  unfold writeOffset, offsetTrace.
  destruct (0 <? offset b)%Z; cbn [render renderPiece]; now rewrite sapp_nil_r.
Qed.

(** The SET loop numbers the columns from the running count on. *)
Lemma setLoop_spec (cols : list string) :
  forall setClauses n,
    setLoop b cols setClauses n
    = ((setClauses
        ++ map (fun ck => (safeIdentifier (fst ck) ++ " = "
                           ++ getPlaceholder b (snd ck))%string)
               (combine cols (seq (S n) (List.length cols))))%list,
       n + List.length cols).
Proof.
  induction cols as [|c cols IH]; intros setClauses n.
  - cbn. now rewrite app_nil_r, Nat.add_0_r.
  - cbn [setLoop]. rewrite IH. cbn [List.length seq combine map fst snd].
    now rewrite <- app_assoc, Nat.add_succ_r.
Qed.

Lemma render_setPieces :
  render b (setPieces b) = strings.Join (fst (setLoop b (updateColumns b) [] 0)) ", ".
Proof.
  unfold setPieces. rewrite render_joinPieces, setLoop_spec, map_map.
  cbn [fst List.app]. f_equal. apply map_ext. intros [c k].
  cbn [render renderPiece fst snd]. now rewrite sapp_assoc, sapp_nil_r.
Qed.

Lemma render_valuePieces :
  render b (valuePieces b)
  = strings.Join (map (fun i => getPlaceholder b (i + 1))
              (seq 0 (List.length (insertValues b)))) ", ".
Proof.
  unfold valuePieces. rewrite render_joinPieces, map_map, <- seq_shift, map_map.
  f_equal. apply map_ext. intros i. cbn [render renderPiece].
  now rewrite sapp_nil_r, Nat.add_1_r.
Qed.

Lemma ordinals_setPieces :
  ordinals (setPieces b) = seq 1 (List.length (updateColumns b)).
Proof.
  unfold setPieces. rewrite ordinals_joinPieces.
  generalize 1. induction (updateColumns b) as [|c cols IH]; intros k.
  - reflexivity.
  - cbn. now rewrite IH.
Qed.

Lemma ordinals_valuePieces :
  ordinals (valuePieces b) = seq 1 (List.length (insertValues b)).
Proof.
  unfold valuePieces. rewrite ordinals_joinPieces.
  generalize 1. induction (List.length (insertValues b)) as [|n IH]; intros k.
  - reflexivity.
  - cbn. now rewrite IH.
Qed.

Lemma ordinals_whereTrace (n : nat) :
  ordinals (whereTrace b n) = seq (S n) (List.length (whereClauses b)).
Proof.
  unfold whereTrace. destruct (whereClauses b) as [|w ws]; [reflexivity|].
  change (0 <? List.length (w :: ws))%nat with true. cbv iota.
  cbn [ordinals]. apply ordinals_wherePieces.
Qed.

Lemma ordinals_orderTrace : ordinals (orderTrace b) = [].
Proof. unfold orderTrace. now destruct (negb _). Qed.

Lemma ordinals_limitTrace : ordinals (limitTrace b) = [].
Proof. unfold limitTrace. now destruct (0 <? limit b)%Z. Qed.

Lemma ordinals_offsetTrace : ordinals (offsetTrace b) = [].
Proof. unfold offsetTrace. now destruct (0 <? offset b)%Z. Qed.

Lemma ordinals_aliasTrace : ordinals (aliasTrace b) = [].
Proof. unfold aliasTrace. now destruct (negb _). Qed.

Lemma ordinals_joins (js : list JoinClause.t) :
  ordinals (map (fun j => Txt (joinFragment j)) js) = [].
Proof. induction js; [reflexivity | exact IHjs]. Qed.

End Renderers.

Section BuildFacts.

Variable b : QueryBuilder.

Lemma buildSelect_spec :
  buildSelect b
  = mkQuery (render b (traceSelect b)) (map WhereClause.Value (whereClauses b)).
Proof.
  unfold buildSelect, traceSelect.
  rewrite writeWhere_spec, writeOffset_spec, writeLimit_spec, writeOrder_spec.
  rewrite (fold_writeJoin b).
  cbn [List.app render renderPiece]. repeat rewrite render_app.
  f_equal. unfold aliasTrace.
  destruct (String.eqb (tableAlias b) ""); cbn [negb render renderPiece];
    repeat rewrite sapp_assoc; cbn [append]; rewrite ?sapp_nil_r; reflexivity.
Qed.

Lemma buildInsert_spec :
  buildInsert b
  = mkQuery (render b (traceInsert b))
            (if (0 <? List.length (insertColumns b))%nat then insertValues b else []).
Proof.
  unfold buildInsert, traceInsert.
  destruct (0 <? List.length (insertColumns b))%nat.
  - cbn [List.app render renderPiece]. rewrite render_app, render_valuePieces.
    cbn [render renderPiece]. f_equal.
    repeat rewrite sapp_assoc; cbn [append]; rewrite ?sapp_nil_r; reflexivity.
  - cbn [List.app render renderPiece]. now rewrite sapp_nil_r.
Qed.

Lemma buildUpdate_spec :
  buildUpdate b
  = mkQuery (render b (traceUpdate b))
            (updateValues b ++ map WhereClause.Value (whereClauses b))%list.
Proof.
  unfold buildUpdate, traceUpdate.
  rewrite (surjective_pairing (setLoop b (updateColumns b) [] 0)).
  rewrite <- render_setPieces. rewrite setLoop_spec. cbn [snd Nat.add].
  rewrite writeWhere_spec, writeLimit_spec, writeOrder_spec.
  cbn [List.app render renderPiece]. repeat rewrite render_app.
  f_equal. repeat rewrite sapp_assoc; cbn [append]; reflexivity.
Qed.

Lemma buildDelete_spec :
  buildDelete b
  = mkQuery (render b (traceDelete b)) (map WhereClause.Value (whereClauses b)).
Proof.
  unfold buildDelete, traceDelete.
  rewrite writeWhere_spec, writeLimit_spec, writeOrder_spec.
  cbn [List.app render renderPiece]. repeat rewrite render_app.
  f_equal. repeat rewrite sapp_assoc; cbn [append]; reflexivity.
Qed.

(** The trace renders to the text [Build] returns. *)
Lemma trace_render : render b (trace b) = SQL (Build b).
Proof.
  unfold trace, Build. destruct (queryType b).
  - now rewrite buildSelect_spec.
  - now rewrite buildInsert_spec.
  - now rewrite buildUpdate_spec.
  - now rewrite buildDelete_spec.
Qed.

(** The placeholders of the trace are numbered like the parameters. *)
Lemma trace_ordinals :
  paired b -> ordinals (trace b) = seq 1 (List.length (Params (Build b))).
Proof.
  unfold paired, trace, Build. intros Hp. destruct (queryType b).
  - rewrite buildSelect_spec. unfold traceSelect. cbn [SQL Params].
    cbn [List.app ordinals]. repeat rewrite ordinals_app.
    rewrite ordinals_aliasTrace, ordinals_joins, ordinals_whereTrace,
      ordinals_orderTrace, ordinals_limitTrace, ordinals_offsetTrace.
    cbn [List.app]. now rewrite app_nil_r, length_map.
  - rewrite buildInsert_spec. unfold traceInsert. cbn [SQL Params].
    cbn [List.app ordinals].
    destruct (0 <? List.length (insertColumns b))%nat; [|reflexivity].
    cbn [List.app ordinals]. rewrite ordinals_app, ordinals_valuePieces.
    cbn [ordinals]. now rewrite app_nil_r.
  - rewrite buildUpdate_spec. unfold traceUpdate. cbn [SQL Params].
    cbn [List.app ordinals]. repeat rewrite ordinals_app.
    rewrite ordinals_setPieces, ordinals_whereTrace,
      ordinals_orderTrace, ordinals_limitTrace.
    cbn [List.app]. rewrite app_nil_r, length_app, length_map, <- Hp.
    now rewrite seq_app.
  - rewrite buildDelete_spec. unfold traceDelete. cbn [SQL Params].
    cbn [List.app ordinals]. repeat rewrite ordinals_app.
    rewrite ordinals_whereTrace, ordinals_orderTrace, ordinals_limitTrace.
    cbn [List.app]. now rewrite app_nil_r, length_map.
Qed.

End BuildFacts.

Section Chains.

Lemma appendPairs_spec (data : list (string * Value)) :
  forall cols vals,
    appendPairs data cols vals
    = ((cols ++ map fst data)%list, (vals ++ map snd data)%list).
Proof.
  unfold appendPairs.
  induction data as [|[c v] data IH]; intros cols vals; cbn [fold_left map].
  - now rewrite !app_nil_r.
  - rewrite IH. cbn [fst snd]. now rewrite <- !app_assoc.
Qed.

Lemma call_paired (d : Decl) (b : QueryBuilder) :
  paired b -> paired (call d b).
Proof.
  unfold paired. destruct b. destruct d; cbn; intros Hp; try exact Hp.
  - unfold Select. destruct cols; exact Hp.
  - unfold Update. rewrite appendPairs_spec. cbn. now rewrite !length_map.
  - rewrite !length_app. cbn. now rewrite Hp.
Qed.

Lemma chain_paired (ds : list Decl) :
  forall b, paired b -> paired (chain ds b).
Proof.
  unfold chain. induction ds as [|d ds IH]; intros b Hp; [exact Hp|].
  cbn [fold_left]. apply IH, call_paired, Hp.
Qed.

(** The record reaches the text of a trace through its style only. *)
Lemma render_ext (b b' : QueryBuilder) (ps : list piece) :
  paramStyle b = paramStyle b' -> render b ps = render b' ps.
Proof.
  intros Hstyle.
  induction ps as [|[s|k] ps IH]; cbn [render renderPiece];
    [reflexivity | now rewrite IH | unfold getPlaceholder; now rewrite Hstyle, IH].
Qed.

Lemma chain_app (ds ds' : list Decl) (b : QueryBuilder) :
  chain (ds ++ ds') b = chain ds' (chain ds b).
Proof. unfold chain. apply fold_left_app. Qed.

End Chains.

Section DollarNumbering.

Variable b : QueryBuilder.
Hypothesis dollar : paramStyle b = DollarNumber.

Lemma getPlaceholder_dollar (k : nat) : getPlaceholder b k = "$" ++ fmt.itoa k.
Proof. unfold getPlaceholder. now rewrite dollar. Qed.

Lemma setLoop_text (cols : list string) :
  forall k,
    map (fun ck => safeIdentifier (fst ck) ++ " = " ++ getPlaceholder b (snd ck))
        (combine cols (seq k (List.length cols)))
    = setClausesText cols k.
Proof.
  induction cols as [|c cols IH]; intros k; [reflexivity|].
  cbn [List.length seq combine map setClausesText fst snd].
  rewrite IH, getPlaceholder_dollar. reflexivity.
Qed.

Lemma render_wherePieces_text (ws : list WhereClause.t) :
  forall i n,
    render b (wherePieces ws i n) = predicatesText ws (i =? 0)%nat (S n).
Proof.
  induction ws as [|w ws IH]; intros i n; [reflexivity|].
  cbn [wherePieces predicatesText]. rewrite render_app.
  cbn [List.app render renderPiece]. rewrite IH, getPlaceholder_dollar.
  destruct i; cbn [Nat.ltb Nat.leb Nat.eqb render renderPiece];
    repeat rewrite sapp_assoc; cbn [append]; reflexivity.
Qed.

Lemma render_whereTrace_text (n : nat) :
  render b (whereTrace b n) = whereText (whereClauses b) (S n).
Proof.
  unfold whereTrace, whereText. destruct (whereClauses b) as [|w ws] eqn:E.
  - reflexivity.
  - change (0 <? List.length (w :: ws))%nat with true. cbv iota.
    cbn [render renderPiece]. now rewrite render_wherePieces_text.
Qed.

End DollarNumbering.

Section Joins.

Lemma call_joinClauses (d : Decl) (b : QueryBuilder) :
  joinClauses (call d b) = (joinClauses b ++ declaredJoin d)%list.
Proof.
  destruct b. destruct d; cbn; rewrite ?app_nil_r; try reflexivity.
  - unfold Select. now destruct cols.
Qed.

Lemma chain_joinClauses (ds : list Decl) :
  forall b, joinClauses (chain ds b) = (joinClauses b ++ declaredJoins ds)%list.
Proof.
  unfold chain, declaredJoins.
  induction ds as [|d ds IH]; intros b; cbn [fold_left flat_map].
  - now rewrite app_nil_r.
  - now rewrite IH, call_joinClauses, <- app_assoc.
Qed.

Lemma declaredJoins_kinds (ds : list Decl) :
  Forall (fun j => In (JoinClause.Type_ j) joinKinds) (declaredJoins ds).
Proof.
  unfold declaredJoins. induction ds as [|d ds IH]; [constructor|].
  cbn [flat_map]. apply Forall_app. split; [|exact IH].
  destruct d; cbn [declaredJoin];
    first [ apply Forall_nil
          | apply Forall_cons;
            [ cbn [JoinClause.Type_ joinKinds In];
              repeat (first [left; reflexivity | right])
            | apply Forall_nil ] ].
Qed.

Lemma render_joins (b : QueryBuilder) (js : list JoinClause.t) :
  render b (map (fun j => Txt (joinFragment j)) js)
  = String.concat "" (map joinFragment js).
Proof.
  induction js as [|j [|j' js] IH]; [reflexivity | |].
  - cbn. now rewrite sapp_nil_r.
  - cbn [map render renderPiece] in *. rewrite IH. reflexivity.
Qed.

Lemma selectHead_alias (b : QueryBuilder) :
  render b ([Txt "select "; Txt (strings.Join (map safeIdentifier (columns b)) ", ");
             Txt " from "; Txt (safeIdentifier (table b))] ++ aliasTrace b)
  = selectHead b.
Proof.
  unfold selectHead, aliasTrace. cbn [List.app render renderPiece].
  destruct (String.eqb (tableAlias b) ""); cbn [negb render renderPiece];
    repeat rewrite sapp_assoc; cbn [append]; rewrite ?sapp_nil_r; reflexivity.
Qed.

End Joins.

Section Reading.

Lemma noDollar_app (a b : string) :
  noDollar (a ++ b) = noDollar a && noDollar b.
Proof.
  induction a as [|x a IH]; cbn [append noDollar]; [reflexivity|].
  now rewrite IH, andb_assoc.
Qed.

Lemma read_literal (s rest : string) :
  noDollar s = true ->
  readOrdinalsFrom None (s ++ rest) = readOrdinalsFrom None rest.
Proof.
  induction s as [|a s IH]; cbn [append noDollar readOrdinalsFrom]; [reflexivity|].
  intros H. apply andb_true_iff in H as [Ha Hs].
  apply negb_true_iff in Ha. rewrite Ha. now apply IH.
Qed.

(** The digits of a decimal numeral are read back as [Nat.of_uint_acc]
    reads the numeral. *)
Lemma read_digits (d : Decimal.uint) :
  forall acc rest,
    readOrdinalsFrom (Some acc) (NilEmpty.string_of_uint d ++ rest)
    = readOrdinalsFrom (Some (Nat.of_uint_acc d acc)) rest.
Proof.
  induction d as [|d IH|d IH|d IH|d IH|d IH|d IH|d IH|d IH|d IH|d IH];
    intros acc rest; [reflexivity|..];
    cbn [NilEmpty.string_of_uint append readOrdinalsFrom Nat.of_uint_acc];
    match goal with
    | |- context [isDigit ?c] => change (isDigit c) with true
    end;
    cbv iota; rewrite IH, Nat.tail_mul_spec; do 3 f_equal;
    match goal with
    | |- context [digitValue ?c] =>
        let v := eval vm_compute in (digitValue c) in
        change (digitValue c) with v
    end; lia.
Qed.

Lemma read_placeholder (k : nat) (rest : string) :
  match rest with
  | EmptyString => True
  | String c _ => isDigit c = false /\ isDollar c = false
  end ->
  readOrdinalsFrom None (("$" ++ fmt.itoa k) ++ rest)
  = k :: readOrdinalsFrom None rest.
Proof.
  intros Hrest. unfold fmt.itoa.
  change (("$" ++ NilEmpty.string_of_uint (Nat.to_uint k)) ++ rest)
    with (String "$" (NilEmpty.string_of_uint (Nat.to_uint k) ++ rest)).
  cbn [readOrdinalsFrom]. change (isDollar "$") with true. cbv iota.
  rewrite read_digits.
  change (Nat.of_uint_acc (Nat.to_uint k) 0) with (Nat.of_uint (Nat.to_uint k)).
  rewrite DecimalNat.Unsigned.of_to.
  destruct rest as [|c rest]; [reflexivity|].
  destruct Hrest as [Hd Hs]. cbn [readOrdinalsFrom]. now rewrite Hd, Hs.
Qed.

Lemma headClean_app (p q : list piece) :
  headClean p -> headClean q -> headClean (p ++ q).
Proof. destruct p as [|[[|c s]|k] p]; cbn; tauto. Qed.

Lemma readable_app (p q : list piece) :
  readable p -> readable q -> headClean q -> readable (p ++ q).
Proof.
  intros Hp Hq Hc. induction p as [|[s|k] p IH]; cbn [List.app readable] in *.
  - exact Hq.
  - split; [apply Hp | apply IH, Hp].
  - split; [|apply IH, Hp]. destruct Hp as [Hh _].
    now apply headClean_app.
Qed.

Lemma readable_joinPieces (sep : string) (gs : list (list piece)) :
  noDollar sep = true ->
  headClean [Txt sep] ->
  Forall readable gs ->
  readable (joinPieces sep gs).
Proof.
  intros Hsep Hc Hgs. induction gs as [|g [|g' rest] IH].
  - exact I.
  - now inversion Hgs.
  - change (joinPieces sep (g :: g' :: rest))
      with (g ++ Txt sep :: joinPieces sep (g' :: rest))%list.
    inversion Hgs as [|? ? Hg Hrest]; subst.
    apply readable_app; [exact Hg | | ].
    + cbn [readable]. split; [exact Hsep | now apply IH].
    + destruct sep; [contradiction | exact Hc].
Qed.

Variable b : QueryBuilder.
Hypothesis dollar : paramStyle b = DollarNumber.

Lemma render_headClean (ps : list piece) :
  headClean ps ->
  match render b ps with
  | EmptyString => True
  | String c _ => isDigit c = false /\ isDollar c = false
  end.
Proof.
  destruct ps as [|[[|c s]|k] ps]; cbn [headClean]; try contradiction.
  - intros _. exact I.
  - intros H. exact H.
Qed.

(** Under [DollarNumber] a readable trace is read back from its text. *)
Lemma read_render (ps : list piece) :
  readable ps -> readOrdinals (render b ps) = ordinals ps.
Proof.
  unfold readOrdinals. induction ps as [|[s|k] ps IH]; cbn [readable render renderPiece ordinals].
  - reflexivity.
  - intros [Hs Hps]. rewrite read_literal by exact Hs. now apply IH.
  - intros [Hc Hps]. rewrite (getPlaceholder_dollar b dollar).
    rewrite read_placeholder by now apply render_headClean.
    f_equal. now apply IH.
Qed.

End Reading.

Section DollarFreeTexts.

Lemma noDollar_deleteMatches (alts : list string) (s : string) :
  forall skip,
    noDollar s = true -> noDollar (regexp.deleteMatches alts skip s) = true.
Proof.
  induction s as [|a s IH]; intros skip H; [reflexivity|].
  cbn [noDollar] in H. apply andb_true_iff in H as [Ha Hs].
  cbn [regexp.deleteMatches]. destruct skip as [|k]; [|now apply IH].
  destruct (regexp.matchAlt alts (String a s)) as [[|k]|];
    cbn [noDollar]; rewrite ?Ha; now apply IH.
Qed.

Lemma noDollar_replaceFrom (old new : string) (s : string) :
  forall skip,
    noDollar new = true -> noDollar s = true ->
    noDollar (strings.replaceFrom skip s old new) = true.
Proof.
  induction s as [|a s IH]; intros skip Hnew H; [reflexivity|].
  cbn [noDollar] in H. apply andb_true_iff in H as [Ha Hs].
  cbn [strings.replaceFrom]. destruct skip as [|k]; [|now apply IH].
  destruct (strings.HasPrefix (String a s) old).
  - rewrite noDollar_app, Hnew. now apply IH.
  - cbn [noDollar]. rewrite Ha. now apply IH.
Qed.

Lemma noDollar_escapeIdentifier (s : string) :
  noDollar s = true -> noDollar (escapeIdentifier s) = true.
Proof. apply noDollar_deleteMatches. Qed.

Lemma noDollar_safeIdentifier (s : string) :
  noDollar s = true -> noDollar (safeIdentifier s) = true.
Proof.
  intros H. unfold safeIdentifier.
  destruct (isValidIdentifier s && negb (strings.Contains s dq)
            && negb (strings.Contains s "'")); [exact H|].
  rewrite !noDollar_app. change (noDollar dq) with true.
  unfold strings.ReplaceAll.
  rewrite noDollar_replaceFrom;
    [reflexivity | reflexivity | now apply noDollar_escapeIdentifier].
Qed.

Lemma noDollar_concat (sep : string) (l : list string) :
  noDollar sep = true -> forallb noDollar l = true ->
  noDollar (String.concat sep l) = true.
Proof.
  intros Hsep. induction l as [|x [|y l] IH]; cbn [forallb String.concat]; intros H.
  - reflexivity.
  - now rewrite andb_true_r in H.
  - apply andb_true_iff in H as [Hx Hl].
    rewrite !noDollar_app, Hx, Hsep. now apply IH.
Qed.

Lemma noDollar_safeColumns (l : list string) :
  forallb noDollar l = true ->
  noDollar (strings.Join (map safeIdentifier l) ", ") = true.
Proof.
  intros H. apply noDollar_concat; [reflexivity|].
  induction l as [|x l IH]; [reflexivity|].
  cbn [forallb map] in *. apply andb_true_iff in H as [Hx Hl].
  now rewrite noDollar_safeIdentifier, IH.
Qed.

Lemma noDollar_uint (d : Decimal.uint) :
  noDollar (NilEmpty.string_of_uint d) = true.
Proof. induction d; cbn [NilEmpty.string_of_uint noDollar]; now rewrite ?IHd. Qed.

Lemma noDollar_itoaZ (z : Z) : noDollar (fmt.itoaZ z) = true.
Proof.
  unfold fmt.itoaZ. destruct (Z.to_int z) as [d|d]; cbn [NilEmpty.string_of_int noDollar].
  - apply noDollar_uint.
  - now rewrite noDollar_uint.
Qed.

Lemma noDollar_joinFragment (j : JoinClause.t) :
  noDollarJoin j = true -> noDollar (joinFragment j) = true.
Proof.
  unfold noDollarJoin, joinFragment. intros H.
  apply andb_true_iff in H as [H Hc]. apply andb_true_iff in H as [H Ha].
  apply andb_true_iff in H as [Hk Ht].
  destruct (String.eqb (JoinClause.Alias j) "");
    rewrite !noDollar_app, Hk, ?noDollar_safeIdentifier, ?noDollar_escapeIdentifier
      by assumption; reflexivity.
Qed.

End DollarFreeTexts.

Section ReadableTraces.

Variable b : QueryBuilder.

Lemma readable_wherePieces (ws : list WhereClause.t) :
  forallb noDollarWhere ws = true ->
  forall i n,
    readable (wherePieces ws i n)
    /\ (0 < i -> headClean (wherePieces ws i n)).
Proof.
  induction ws as [|w ws IH]; intros H i n; [cbn; tauto|].
  cbn [forallb] in H. apply andb_true_iff in H as [Hw Hws].
  unfold noDollarWhere in Hw.
  apply andb_true_iff in Hw as [Hw Hj]. apply andb_true_iff in Hw as [Hc Ho].
  destruct (IH Hws (S i) (S n)) as [Hr Hh]. specialize (Hh (Nat.lt_0_succ i)).
  cbn [wherePieces]. destruct (Nat.ltb_spec 0 i) as [Hi|Hi];
    cbn [List.app readable headClean];
    rewrite ?noDollar_app, ?Hj, ?noDollar_safeIdentifier, ?noDollar_escapeIdentifier
      by assumption;
    cbn [noDollar isDollar Ascii.eqb Bool.eqb negb andb]; repeat split; auto; lia.
Qed.

Lemma readable_whereTrace (n : nat) :
  forallb noDollarWhere (whereClauses b) = true ->
  readable (whereTrace b n) /\ headClean (whereTrace b n).
Proof.
  intros H. unfold whereTrace.
  destruct (0 <? List.length (whereClauses b))%nat; [|cbn; tauto].
  destruct (readable_wherePieces _ H 0 n) as [Hr _].
  cbn [readable headClean]. repeat split; auto.
Qed.

Lemma readable_orderTrace :
  noDollar (order b) = true ->
  readable (orderTrace b) /\ headClean (orderTrace b).
Proof.
  intros H. unfold orderTrace. destruct (negb _); [|cbn; tauto].
  cbn [readable headClean]. rewrite noDollar_safeIdentifier by exact H.
  repeat split; auto.
Qed.

Lemma readable_limitTrace :
  readable (limitTrace b) /\ headClean (limitTrace b).
Proof.
  unfold limitTrace. destruct (0 <? limit b)%Z; [|cbn; tauto].
  split; [|cbn; auto].
  cbn [readable]. rewrite noDollar_app, noDollar_itoaZ. auto.
Qed.

Lemma readable_offsetTrace :
  readable (offsetTrace b) /\ headClean (offsetTrace b).
Proof.
  unfold offsetTrace. destruct (0 <? offset b)%Z; [|cbn; tauto].
  split; [|cbn; auto].
  cbn [readable]. rewrite noDollar_app, noDollar_itoaZ. auto.
Qed.

Lemma readable_aliasTrace :
  noDollar (tableAlias b) = true ->
  readable (aliasTrace b) /\ headClean (aliasTrace b).
Proof.
  intros H. unfold aliasTrace. destruct (negb _); [|cbn; tauto].
  cbn [readable headClean]. rewrite noDollar_safeIdentifier by exact H.
  repeat split; auto.
Qed.

Lemma readable_joins (js : list JoinClause.t) :
  forallb noDollarJoin js = true ->
  readable (map (fun j => Txt (joinFragment j)) js)
  /\ headClean (map (fun j => Txt (joinFragment j)) js).
Proof.
  induction js as [|j js IH]; intros H; [cbn; tauto|].
  cbn [forallb] in H. apply andb_true_iff in H as [Hj Hjs].
  cbn [map readable]. rewrite noDollar_joinFragment by exact Hj.
  repeat split; try apply IH; auto.
Qed.

(** Two blocks that can each follow a placeholder. *)
Lemma readable_blocks (p q : list piece) :
  readable p /\ headClean p ->
  readable q /\ headClean q ->
  readable (p ++ q) /\ headClean (p ++ q).
Proof.
  intros [Hp Hcp] [Hq Hcq]. split.
  - now apply readable_app.
  - now apply headClean_app.
Qed.

Lemma readable_setPieces :
  forallb noDollar (updateColumns b) = true -> readable (setPieces b).
Proof.
  intros H. unfold setPieces.
  apply readable_joinPieces; [reflexivity | cbn; auto |].
  generalize 1. induction (updateColumns b) as [|c cols IH]; intros k.
  - constructor.
  - cbn [forallb] in H. apply andb_true_iff in H as [Hc Hcols].
    cbn [List.length seq combine map]. constructor; [|now apply IH].
    cbn [readable headClean fst snd].
    rewrite noDollar_app, noDollar_safeIdentifier by exact Hc. auto.
Qed.

Lemma readable_valuePieces : readable (valuePieces b).
Proof.
  unfold valuePieces. apply readable_joinPieces; [reflexivity | cbn; auto |].
  generalize 1. induction (List.length (insertValues b)) as [|n IH]; intros k.
  - constructor.
  - cbn [seq map]. constructor; [cbn; auto | apply IH].
Qed.

Hypothesis texts : dollarFree b = true.

(** The trace of a record without a dollar sign in its texts is
    readable. *)
Lemma readable_trace : readable (trace b).
Proof.
  pose proof texts as H. unfold dollarFree in H.
  apply andb_true_iff in H as [H Hupd]. apply andb_true_iff in H as [H Hins].
  apply andb_true_iff in H as [H Hord]. apply andb_true_iff in H as [H Hjoins].
  apply andb_true_iff in H as [H Hwhere]. apply andb_true_iff in H as [H Hcols].
  apply andb_true_iff in H as [Htable Halias].
  pose proof (readable_whereTrace 0 Hwhere) as Hw0.
  pose proof (readable_whereTrace (List.length (updateColumns b)) Hwhere) as HwM.
  pose proof (readable_orderTrace Hord) as Ho.
  pose proof readable_limitTrace as Hl.
  pose proof readable_offsetTrace as Hoff.
  pose proof (readable_aliasTrace Halias) as Ha.
  pose proof (readable_joins _ Hjoins) as Hj.
  unfold trace. destruct (queryType b).
  - unfold traceSelect. cbn [List.app readable].
    rewrite noDollar_safeColumns, noDollar_safeIdentifier by assumption.
    repeat split; auto.
    apply readable_blocks; [exact Ha|].
    apply readable_blocks; [exact Hj|].
    apply readable_blocks; [exact Hw0|].
    apply readable_blocks; [exact Ho|].
    apply readable_blocks; [exact Hl | exact Hoff].
  - unfold traceInsert. cbn [List.app readable].
    rewrite noDollar_safeIdentifier by assumption.
    repeat split; auto.
    destruct (0 <? List.length (insertColumns b))%nat; [|exact I].
    cbn [List.app readable].
    rewrite noDollar_safeColumns by assumption.
    repeat split; auto.
    apply readable_app; [apply readable_valuePieces | cbn; auto | cbn; auto].
  - unfold traceUpdate. cbn [List.app readable].
    rewrite noDollar_safeIdentifier by assumption.
    repeat split; auto.
    apply readable_app; [now apply readable_setPieces | |].
    + apply readable_blocks; [exact HwM|].
      apply readable_blocks; [exact Ho | exact Hl].
    + apply readable_blocks; [exact HwM|].
      apply readable_blocks; [exact Ho | exact Hl].
  - unfold traceDelete. cbn [List.app readable].
    rewrite noDollar_safeIdentifier by assumption.
    repeat split; auto.
    apply readable_blocks; [exact Hw0|].
    apply readable_blocks; [exact Ho | exact Hl].
Qed.

(** Under [DollarNumber] the tokens read in the text of [Build] are the
    placeholders it wrote. *)
Lemma read_Build :
  paramStyle b = DollarNumber ->
  readOrdinals (SQL (Build b)) = ordinals (trace b).
Proof.
  intros Hstyle. rewrite <- trace_render.
  apply (read_render b Hstyle), readable_trace.
Qed.

End ReadableTraces.

(* ===================================================================== *)
(** ** The identifier safety layer: routing *)
(* ===================================================================== *)

(** C1 (the code departs from the claim).  The claim: an identifier with a
    denylisted keyword inside is rendered without that keyword, in any case
    variant.  [escapeIdentifier] deletes the matches of one left-to-right
    pass, and the text on both sides of a deleted match can close up to a
    keyword again: for the table [drdropop] the rendered position is the
    quoted word [drop], and the same happens at the column, alias, join
    alias and order-by positions, in upper case as well. *)
Theorem C1_keyword_survives_one_pass :
  hasKeyword "drdropop" = true
  /\ safeIdentifier "drdropop" = dq ++ "drop" ++ dq
  /\ hasKeyword (safeIdentifier "drdropop") = true
  /\ SQL (Build (Table "drdropop" NewQueryBuilder))
     = "select * from " ++ dq ++ "drop" ++ dq
  /\ SQL (Build (chain [DTable "users; DRDROPOP TABLE accounts; --";
                        DSelect ["id"; "name"]] NewQueryBuilder))
     = "select id, name from " ++ dq ++ "users; DROP TABLE accounts; --" ++ dq
  /\ SQL (Build (chain [DTable "t"; DAs "deldeleteete"; DSelect ["ininsertsert"];
                        DJoinAs "u" "UPUPDATEDATE" "u.id = t.id";
                        DOrderBy "crcreateeate"] NewQueryBuilder))
     = "select " ++ dq ++ "insert" ++ dq ++ " from t as " ++ dq ++ "delete" ++ dq
       ++ " JOIN u as " ++ dq ++ "UPDATE" ++ dq ++ " on u.id = t.id order by "
       ++ dq ++ "create" ++ dq.
Proof. vm_compute. repeat split; reflexivity. Qed.


(** C3, as the code has it.  An identifier the classifier accepts is
    embedded byte for byte when it also holds neither a double quote nor a
    single quote: [safeIdentifier] tests the three conditions together. *)
Theorem C3_safe_identifier_is_unmodified :
  forall identifier : string,
    isValidIdentifier identifier = true ->
    strings.Contains identifier dq = false ->
    strings.Contains identifier "'" = false ->
    safeIdentifier identifier = identifier.
Proof.
  intros identifier Hsafe Hdq Hsq. unfold safeIdentifier.
  now rewrite Hsafe, Hdq, Hsq.
Qed.

Lemma C3_safe_identifier_witness :
  isValidIdentifier "accounts.name as account_name" = true
  /\ strings.Contains "accounts.name as account_name" dq = false
  /\ strings.Contains "accounts.name as account_name" "'" = false
  /\ safeIdentifier "accounts.name as account_name" = "accounts.name as account_name".
Proof.
  split; [reflexivity | split; [reflexivity | split; [reflexivity|]]].
  apply (C3_safe_identifier_is_unmodified "accounts.name as account_name");
    reflexivity.
Defined.

(** C3, as the claim states it, fails: the classifier accepts an
    identifier with a quote character, and the layer strips and quotes
    it. *)
Lemma C3_quote_counterexample :
  isValidIdentifier "it's" = true
  /\ safeIdentifier "it's" = dq ++ "it's" ++ dq
  /\ safeIdentifier "it's" <> "it's"
  /\ isValidIdentifier ("a" ++ dq ++ "b") = true
  /\ safeIdentifier ("a" ++ dq ++ "b") = dq ++ "a" ++ dq ++ dq ++ "b" ++ dq
  /\ safeIdentifier ("a" ++ dq ++ "b") <> "a" ++ dq ++ "b".
Proof.
  repeat split; try (vm_compute; reflexivity);
    apply String.eqb_neq; vm_compute; reflexivity.
Qed.

(* ===================================================================== *)
(** ** Placeholders and parameters *)
(* ===================================================================== *)

(** C4.  Whatever chain of declaration calls a fresh builder receives, the
    writes of [Build] render to the text it returns, they hold as many
    placeholders as the result has parameters, and the ordinals of the
    placeholders are 1, 2, ..., n from left to right; a placeholder with
    ordinal [k] is written [$k] unless the style is [QuestionMark].  Under
    [DollarNumber], and when no declared text holds a dollar sign of its
    own, the tokens [$<digits>] read in the returned text from left to
    right spell 1, 2, ..., n. *)
Theorem C4_placeholders_match_parameters :
  forall ds : list Decl,
    let b := chain ds NewQueryBuilder in
    let n := List.length (Params (Build b)) in
    render b (trace b) = SQL (Build b)
    /\ List.length (ordinals (trace b)) = n
    /\ ordinals (trace b) = seq 1 n
    /\ (forall k, renderPiece b (Ph k)
                  = if (paramStyle b =? QuestionMark)%Z then "?"
                    else "$" ++ fmt.itoa k)
    /\ (paramStyle b = DollarNumber ->
        dollarFree b = true ->
        readOrdinals (SQL (Build b)) = seq 1 n).
Proof.
  intros ds b n.
  assert (Hp : paired b) by (apply chain_paired; reflexivity).
  pose proof (trace_ordinals b Hp) as Hord. fold n in Hord.
  split; [apply trace_render|].
  split; [now rewrite Hord, length_seq|].
  split; [exact Hord|].
  split; [intros k; reflexivity|].
  intros Hstyle Htexts. now rewrite read_Build.
Qed.

Lemma C4_placeholders_witness :
  let b := chain [DTable "users";
                  DUpdate [("name", VStr "Jane"); ("email", VStr "jane@example.com")];
                  DWhere "id" "=" (VInt 1); DOrWhere "age" ">" (VInt 18);
                  DOrderBy "name"; DLimit 10]
                 NewQueryBuilder in
  paramStyle b = DollarNumber
  /\ dollarFree b = true
  /\ readOrdinals (SQL (Build b)) = seq 1 (List.length (Params (Build b))).
Proof.
  intros b. split; [reflexivity | split; [reflexivity|]].
  apply (proj2 (proj2 (proj2 (proj2 (C4_placeholders_match_parameters _)))));
    reflexivity.
Defined.

(** C5.  An Update with M update columns and N predicates under
    [DollarNumber]: the SET entries carry [$1 .. $M] in column order, and
    the predicates carry [$(M+1) .. $(M+N)] in declaration order. *)
Theorem C5_update_numbering_is_shared :
  forall b : QueryBuilder,
    queryType b = UpdateQuery ->
    paramStyle b = DollarNumber ->
    let M := List.length (updateColumns b) in
    let N := List.length (whereClauses b) in
    SQL (Build b)
    = "update " ++ safeIdentifier (table b) ++ " set "
      ++ strings.Join (setClausesText (updateColumns b) 1) ", "
      ++ whereText (whereClauses b) (M + 1)
      ++ updateTail b
    /\ ordinals (setPieces b) = seq 1 M
    /\ ordinals (whereTrace b M) = seq (M + 1) N
    /\ ordinals (trace b) = (seq 1 M ++ seq (M + 1) N)%list.
Proof.
  intros b Hkind Hstyle M N.
  assert (Hset : ordinals (setPieces b) = seq 1 M) by apply ordinals_setPieces.
  assert (Hwhere : ordinals (whereTrace b M) = seq (M + 1) N)
    by (rewrite Nat.add_1_r; apply ordinals_whereTrace).
  split; [|split; [exact Hset | split; [exact Hwhere|]]].
  - unfold Build. rewrite Hkind, buildUpdate_spec. cbn [SQL].
    unfold traceUpdate, updateTail. cbn [List.app render renderPiece].
    rewrite !render_app, render_setPieces, setLoop_spec. cbn [fst List.app].
    rewrite (setLoop_text b Hstyle), (render_whereTrace_text b Hstyle).
    fold M. rewrite Nat.add_1_r.
    repeat rewrite sapp_assoc; cbn [append]; reflexivity.
  - unfold trace. rewrite Hkind. unfold traceUpdate.
    cbn [List.app ordinals]. rewrite !ordinals_app.
    fold M. rewrite Hset, Hwhere, ordinals_orderTrace, ordinals_limitTrace.
    now rewrite !app_nil_r.
Qed.

Lemma C5_update_numbering_witness :
  let b := chain [DTable "users"; DSet "name" (VStr "Jane"); DSet "age" (VInt 30);
                  DWhere "id" "=" (VInt 1); DOrWhere "id" "=" (VInt 2)]
                 NewQueryBuilder in
  queryType b = UpdateQuery
  /\ paramStyle b = DollarNumber
  /\ (SQL (Build b)
      = "update " ++ safeIdentifier (table b) ++ " set "
        ++ strings.Join (setClausesText (updateColumns b) 1) ", "
        ++ whereText (whereClauses b) (List.length (updateColumns b) + 1)
        ++ updateTail b
      /\ ordinals (setPieces b) = seq 1 (List.length (updateColumns b))
      /\ ordinals (whereTrace b (List.length (updateColumns b)))
         = seq (List.length (updateColumns b) + 1) (List.length (whereClauses b))
      /\ ordinals (trace b)
         = (seq 1 (List.length (updateColumns b))
            ++ seq (List.length (updateColumns b) + 1)
                   (List.length (whereClauses b)))%list).
Proof.
  intros b. split; [reflexivity | split; [reflexivity|]].
  apply (C5_update_numbering_is_shared b); reflexivity.
Defined.

(* ===================================================================== *)
(** ** The scenarios *)
(* ===================================================================== *)

(** C6.  Scenario D: the join table of the injection test is stripped of
    its keyword and quoted, and the text of the Select holds [drop table]
    in no mix of cases. *)
Theorem C6_scenario_D_no_drop_table :
  let q := Build (LeftJoin "accounts; DROP TABLE logs; --"
                           "accounts.id = users.account_id"
                           (Table "users" NewQueryBuilder)) in
  SQL q = "select * from users LEFT JOIN " ++ dq ++ "accounts;  TABLE logs; --"
          ++ dq ++ " on accounts.id = users.account_id"
  /\ ContainsFold (SQL q) "drop table" = false.
Proof. vm_compute. split; reflexivity. Qed.

(** C7.  Scenario A: the text and the parameter list of the first
    example. *)
Theorem C7_scenario_A :
  Build (Where "age" ">" (VInt 18)
           (Select ["id"; "name"; "email"] (Table "users" NewQueryBuilder)))
  = mkQuery "select id, name, email from users where age > $1" [VInt 18].
Proof. vm_compute. reflexivity. Qed.

(* ===================================================================== *)
(** ** Joins, and the builds that ignore part of the record *)
(* ===================================================================== *)

(** C8, as the code has it.  The joins of the record are the joins the
    calls declared, in the order of the calls, each with one of the five
    upper-case kinds; the Select renderer writes between the FROM part and
    the WHERE part one fragment per join, in that order, of the form
    [ KIND table[ as alias] on condition] with lower-case [as] and [on],
    table and alias through [safeIdentifier] and the condition through
    [escapeIdentifier]; the parameters are those of the predicates. *)
Theorem C8_join_fragments_in_declaration_order :
  forall ds : list Decl,
    let b := chain ds NewQueryBuilder in
    joinClauses b = declaredJoins ds
    /\ Forall (fun j => In (JoinClause.Type_ j) joinKinds) (joinClauses b)
    /\ buildSelect b
       = mkQuery (selectHead b
                  ++ String.concat "" (map joinFragment (joinClauses b))
                  ++ selectTail b)
                 (map WhereClause.Value (whereClauses b))
    /\ (forall j, joinFragment j
                  = " " ++ JoinClause.Type_ j ++ " "
                    ++ safeIdentifier (JoinClause.Table j)
                    ++ (if String.eqb (JoinClause.Alias j) "" then ""
                        else " as " ++ safeIdentifier (JoinClause.Alias j))
                    ++ " on " ++ escapeIdentifier (JoinClause.Condition j)).
Proof.
  intros ds b.
  assert (Hjoins : joinClauses b = declaredJoins ds)
    by (unfold b; now rewrite chain_joinClauses).
  split; [exact Hjoins|].
  split; [rewrite Hjoins; apply declaredJoins_kinds|].
  split; [|reflexivity].
  rewrite buildSelect_spec. f_equal. unfold traceSelect, selectTail.
  rewrite app_assoc, render_app, selectHead_alias, render_app, render_joins.
  reflexivity.
Qed.

(** C8, as the claim states it, fails: the renderer writes [as] and [on]
    in lower case, so the text holds neither [ AS ] nor [ ON ]; and a table
    the classifier accepts keeps the characters the strict policy would
    remove. *)
Lemma C8_join_keywords_counterexample :
  let b := JoinAs "users" "u" "u.id = p.user_id" (Table "posts" NewQueryBuilder) in
  let b' := Join "user accounts" "a.id = p.user_id" (Table "posts" NewQueryBuilder) in
  SQL (Build b) = "select * from posts JOIN users as u on u.id = p.user_id"
  /\ selectHead b ++ String.concat "" (map joinFragment_spec (joinClauses b))
     ++ selectTail b
     = "select * from posts JOIN users AS u ON u.id = p.user_id"
  /\ SQL (Build b)
     <> selectHead b ++ String.concat "" (map joinFragment_spec (joinClauses b))
        ++ selectTail b
  /\ strings.Contains (SQL (Build b)) " AS " = false
  /\ strings.Contains (SQL (Build b)) " ON " = false
  /\ SQL (Build b') = "select * from posts JOIN user accounts on a.id = p.user_id"
  /\ strings.Contains (SQL (Build b')) (strictPolicy_spec "user accounts") = false.
Proof.
  repeat split; try (vm_compute; reflexivity);
    apply String.eqb_neq; vm_compute; reflexivity.
Qed.

(** C9.  The declaration calls and [Build] are functions without an error
    result: every chain of calls on a fresh builder builds to a [Query].
    An Insert build whose column list is empty returns the text
    [insert into] followed by the table as the safety layer writes it, and
    no parameter, whatever the other fields hold; in particular after any
    chain of calls that ends with the table, an empty column list and
    values. *)
Theorem C9_insert_without_columns :
  (forall ds : list Decl, exists q : Query, Build (chain ds NewQueryBuilder) = q)
  /\ (forall b : QueryBuilder,
         queryType b = InsertQuery ->
         insertColumns b = [] ->
         Build b = mkQuery ("insert into " ++ safeIdentifier (table b)) [])
  /\ (forall (ds : list Decl) (t : string) (vals : list Value),
         Build (chain (ds ++ [DTable t; DInsertColumns []; DValues vals])
                      NewQueryBuilder)
         = mkQuery ("insert into " ++ safeIdentifier t) []).
Proof.
  split; [intros ds; eexists; reflexivity|].
  assert (Hgen : forall b : QueryBuilder,
             queryType b = InsertQuery ->
             insertColumns b = [] ->
             Build b = mkQuery ("insert into " ++ safeIdentifier (table b)) []).
  { intros b Hkind Hcols. unfold Build, buildInsert. now rewrite Hkind, Hcols. }
  split; [exact Hgen|].
  intros ds t vals. rewrite chain_app.
  destruct (chain ds NewQueryBuilder) as [qt t0 ta c w j o l off ps ic iv uc uv].
  set (b := chain [DTable t; DInsertColumns []; DValues vals]
                  (mkBuilder qt t0 ta c w j o l off ps ic iv uc uv)).
  change (Build b = mkQuery ("insert into " ++ safeIdentifier (table b)) []).
  apply Hgen; reflexivity.
Qed.

Lemma C9_insert_without_columns_witness :
  let b := Values [VStr "John"; VInt 30]
             (InsertColumns [] (Where "id" "=" (VInt 1)
                (Limit (-5) (Table "users" NewQueryBuilder)))) in
  queryType b = InsertQuery
  /\ insertColumns b = []
  /\ Build b = mkQuery ("insert into " ++ safeIdentifier (table b)) [].
Proof.
  intros b. split; [reflexivity | split; [reflexivity|]].
  apply (proj1 (proj2 C9_insert_without_columns) b); reflexivity.
Defined.

(** C10.  [Values] leaves the statement kind as it is, and a build of
    another kind than Insert does not see the declared values.  On a fresh
    builder, [Table t] and [Values] alone build the Select over all columns
    of the table as the safety layer writes it, with no parameter; the text
    is [select * from t] itself for a table the layer passes unchanged. *)
Theorem C10_values_keeps_the_kind :
  (forall (vals : list Value) (b : QueryBuilder),
      queryType (Values vals b) = queryType b)
  /\ (forall (vals : list Value) (b : QueryBuilder),
         queryType b <> InsertQuery -> Build (Values vals b) = Build b)
  /\ (forall (t : string) (vals : list Value),
         queryType (Values vals (Table t NewQueryBuilder)) = SelectQuery
         /\ Build (Values vals (Table t NewQueryBuilder))
            = mkQuery ("select * from " ++ safeIdentifier t) [])
  /\ (forall (t : string) (vals : list Value),
         isValidIdentifier t = true ->
         strings.Contains t dq = false ->
         strings.Contains t "'" = false ->
         Build (Values vals (Table t NewQueryBuilder))
         = mkQuery ("select * from " ++ t) []).
Proof.
  assert (Hfresh : forall (t : string) (vals : list Value),
             Build (Values vals (Table t NewQueryBuilder))
             = mkQuery ("select * from " ++ safeIdentifier t) []).
  { intros t vals. reflexivity. }
  split; [intros vals b; destruct b; reflexivity|].
  split.
  { intros vals b Hkind. destruct b as [qt t ta c w j o l off ps ic iv uc uv].
    cbn in Hkind. set (b := mkBuilder qt t ta c w j o l off ps ic iv uc uv).
    unfold Build.
    destruct qt; [ | contradiction | | ]; cbn [queryType Values set_insertValues b].
    - rewrite !buildSelect_spec. f_equal. now apply render_ext.
    - rewrite !buildUpdate_spec. f_equal. now apply render_ext.
    - rewrite !buildDelete_spec. f_equal. now apply render_ext. }
  split; [intros t vals; split; [reflexivity | apply Hfresh]|].
  intros t vals Hsafe Hdq Hsq. rewrite Hfresh.
  unfold safeIdentifier. now rewrite Hsafe, Hdq, Hsq.
Qed.

Lemma C10_values_keeps_the_kind_witness :
  isValidIdentifier "users" = true
  /\ strings.Contains "users" dq = false
  /\ strings.Contains "users" "'" = false
  /\ Build (Values [VStr "John"; VInt 30] (Table "users" NewQueryBuilder))
     = mkQuery ("select * from " ++ "users") [].
Proof.
  split; [reflexivity | split; [reflexivity | split; [reflexivity|]]].
  apply (proj2 (proj2 (proj2 C10_values_keeps_the_kind)) "users"); reflexivity.
Defined.


(* ===================================================================== *)
(** ** Further properties: what the keyword pass deletes *)
(* ===================================================================== *)

Section KeywordPass.

Lemma countChar_app (c : ascii) (a b : string) :
  countChar c (a ++ b) = countChar c a + countChar c b.
Proof.
  induction a as [|x a IH]; cbn [append countChar]; [reflexivity|].
  rewrite IH. lia.
Qed.

Lemma countChar_le_length (c : ascii) (s : string) :
  countChar c s <= String.length s.
Proof.
  induction s as [|a s IH]; cbn [countChar String.length]; [lia|].
  destruct (Ascii.eqb a c); lia.
Qed.

Lemma substring_0_0 (s : string) : substring 0 0 s = "".
Proof. now destruct s. Qed.

Lemma matchFold_length (p : string) :
  forall s n,
    regexp.matchFold p s = Some n ->
    n <= String.length s /\ String.length p <= n.
Proof.
  induction p as [|k p IH]; intros s n H; cbn [regexp.matchFold] in H.
  - inversion H. cbn. lia.
  - destruct s as [|a s]; [discriminate|].
    destruct (Ascii.eqb (strings.lowerByte a) k).
    + destruct (regexp.matchFold p s) as [m|] eqn:E; [|discriminate].
      inversion H; subst. destruct (IH _ _ E). cbn [String.length]. lia.
    + destruct (Ascii.eqb k "s" && Ascii.eqb a "197"); [|discriminate].
      destruct s as [|b s]; [discriminate|].
      destruct (Ascii.eqb b "191"); [|discriminate].
      destruct (regexp.matchFold p s) as [m|] eqn:E; [|discriminate].
      inversion H; subst. destruct (IH _ _ E). cbn [String.length]. lia.
Qed.

(** The bytes a literal alternative covers are letters of the
    alternative, or the two bytes of U+017F. *)
Lemma matchFold_inert (c : ascii) (p : string) :
  Ascii.eqb c "197" = false ->
  Ascii.eqb c "191" = false ->
  forall s n,
    occurs (strings.lowerByte c) p = false ->
    regexp.matchFold p s = Some n ->
    countChar c (substring 0 n s) = 0.
Proof.
  intros Hc5 Hbf. induction p as [|k p IH]; intros s n Hocc H;
    cbn [regexp.matchFold] in H.
  - inversion H. now rewrite substring_0_0.
  - cbn [occurs] in Hocc. apply orb_false_iff in Hocc as [Hk Hp].
    destruct s as [|a s]; [discriminate|].
    destruct (Ascii.eqb (strings.lowerByte a) k) eqn:Ea.
    + destruct (regexp.matchFold p s) as [m|] eqn:E; [|discriminate].
      inversion H; subst. cbn [substring countChar].
      rewrite (IH _ _ Hp E).
      destruct (Ascii.eqb_spec a c) as [->|_]; [|reflexivity].
      apply Ascii.eqb_eq in Ea. rewrite Ea, Ascii.eqb_refl in Hk. discriminate.
    + destruct (Ascii.eqb k "s" && Ascii.eqb a "197") eqn:Es; [|discriminate].
      apply andb_true_iff in Es as [_ Ea5]. apply Ascii.eqb_eq in Ea5. subst a.
      destruct s as [|b s]; [discriminate|].
      destruct (Ascii.eqb_spec b "191") as [->|_]; [|discriminate].
      destruct (regexp.matchFold p s) as [m|] eqn:E; [|discriminate].
      inversion H; subst. cbn [substring countChar].
      rewrite (IH _ _ Hp E).
      rewrite (Ascii.eqb_sym "197" c), (Ascii.eqb_sym "191" c), Hc5, Hbf.
      reflexivity.
Qed.

Lemma matchAlt_inert (c : ascii) (alts : list string) (s : string) (n : nat) :
  Ascii.eqb c "197" = false ->
  Ascii.eqb c "191" = false ->
  existsb (occurs (strings.lowerByte c)) alts = false ->
  regexp.matchAlt alts s = Some n ->
  countChar c (substring 0 n s) = 0.
Proof.
  intros Hc5 Hbf. induction alts as [|p alts IH]; intros Hocc H;
    cbn [regexp.matchAlt] in H; [discriminate|].
  cbn [existsb] in Hocc. apply orb_false_iff in Hocc as [Hp Halts].
  destruct (regexp.matchFold p s) as [m|] eqn:E.
  - inversion H; subst. now apply (matchFold_inert c p Hc5 Hbf s).
  - now apply IH.
Qed.

Lemma matchAlt_length (alts : list string) (s : string) (n : nat) :
  regexp.matchAlt alts s = Some n ->
  n <= String.length s
  /\ (forallb (fun p => 4 <=? String.length p)%nat alts = true -> 4 <= n).
Proof.
  induction alts as [|p alts IH]; intros H; cbn [regexp.matchAlt] in H;
    [discriminate|].
  destruct (regexp.matchFold p s) as [m|] eqn:E.
  - inversion H; subst. destruct (matchFold_length _ _ _ E) as [H1 H2].
    split; [exact H1|]. cbn [forallb]. intros Hl.
    apply andb_true_iff in Hl as [Hl _]. apply Nat.leb_le in Hl. lia.
  - destruct (IH H) as [H1 H2]. split; [exact H1|].
    cbn [forallb]. intros Hl. apply andb_true_iff in Hl as [_ Hl]. auto.
Qed.

(** A byte no alternative can cover is never deleted. *)
Lemma deleteMatches_count (c : ascii) (alts : list string) :
  Ascii.eqb c "197" = false ->
  Ascii.eqb c "191" = false ->
  existsb (occurs (strings.lowerByte c)) alts = false ->
  forall s k,
    countChar c (regexp.deleteMatches alts k s) + countChar c (substring 0 k s)
    = countChar c s.
Proof.
  intros Hc5 Hbf Hocc. induction s as [|a s IH]; intros k.
  - destruct k; reflexivity.
  - cbn [regexp.deleteMatches]. destruct k as [|k].
    + cbn [substring countChar]. rewrite Nat.add_0_r.
      pose proof (IH 0) as IH0. rewrite substring_0_0 in IH0.
      cbn [countChar] in IH0. rewrite Nat.add_0_r in IH0.
      destruct (regexp.matchAlt alts (String a s)) as [[|m]|] eqn:E.
      * cbn [countChar]. now rewrite IH0.
      * pose proof (matchAlt_inert c alts _ _ Hc5 Hbf Hocc E) as Hz.
        cbn [substring countChar] in Hz. specialize (IH m). lia.
      * cbn [countChar]. now rewrite IH0.
    + cbn [substring countChar]. specialize (IH k). lia.
Qed.

Lemma deleteMatches_length (alts : list string) :
  forall s k,
    String.length (regexp.deleteMatches alts k s) + Nat.min k (String.length s)
    <= String.length s.
Proof.
  induction s as [|a s IH]; intros k.
  - destruct k; cbn; lia.
  - cbn [regexp.deleteMatches String.length]. destruct k as [|k].
    + destruct (regexp.matchAlt alts (String a s)) as [[|m]|];
        cbn [String.length Nat.min];
        [specialize (IH 0) | specialize (IH m) | specialize (IH 0)]; lia.
    + cbn [Nat.min]. specialize (IH k). lia.
Qed.

(** Where some alternative of four letters or more matches, the pass
    deletes four bytes at least; where none matches, nothing. *)
Lemma deleteMatches_shrinks (alts : list string) :
  forallb (fun p => 4 <=? String.length p)%nat alts = true ->
  forall s,
    matchesSomewhere alts s = true ->
    String.length (regexp.deleteMatches alts 0 s) + 4 <= String.length s.
Proof.
  intros Hl. induction s as [|a s IH]; intros H; cbn [matchesSomewhere] in H.
  - destruct (regexp.matchAlt alts "") as [[|m]|] eqn:E; try discriminate.
    destruct (matchAlt_length _ _ _ E) as [H1 _]. cbn in H1. lia.
  - cbn [regexp.deleteMatches String.length].
    destruct (regexp.matchAlt alts (String a s)) as [[|m]|] eqn:E.
    + cbn [String.length]. specialize (IH H). lia.
    + destruct (matchAlt_length _ _ _ E) as [H1 H2]. specialize (H2 Hl).
      cbn [String.length] in H1.
      pose proof (deleteMatches_length alts s m). lia.
    + cbn [String.length]. specialize (IH H). lia.
Qed.

Lemma deleteMatches_id (alts : list string) :
  forall s,
    matchesSomewhere alts s = false -> regexp.deleteMatches alts 0 s = s.
Proof.
  induction s as [|a s IH]; intros H; [reflexivity|].
  cbn [matchesSomewhere] in H. cbn [regexp.deleteMatches].
  destruct (regexp.matchAlt alts (String a s)) as [[|m]|];
    try discriminate; now rewrite IH.
Qed.

End KeywordPass.

Section AsciiTexts.

Lemma ascii_not_byte (a c : ascii) :
  (nat_of_ascii a <? 128)%nat = true ->
  (nat_of_ascii c <? 128)%nat = false ->
  Ascii.eqb a c = false.
Proof.
  intros Ha Hc. destruct (Ascii.eqb_spec a c) as [->|_]; [|reflexivity].
  rewrite Ha in Hc. discriminate.
Qed.

Lemma ToLower_ascii (a : ascii) (t : string) :
  (nat_of_ascii a <? 128)%nat = true ->
  strings.ToLower (String a t) = String (strings.lowerByte a) (strings.ToLower t).
Proof.
  intros Ha.
  assert (H196 : Ascii.eqb a "196" = false) by now apply ascii_not_byte.
  assert (H226 : Ascii.eqb a "226" = false) by now apply ascii_not_byte.
  destruct t as [|b [|c t]]; cbn [strings.ToLower]; rewrite ?H196, ?H226; reflexivity.
Qed.

(** On an ASCII text a literal alternative matches where the lower-cased
    text starts with it. *)
Lemma matchFold_ascii (p : string) :
  forall s,
    isASCII s = true ->
    regexp.matchFold p s
    = if strings.HasPrefix (strings.ToLower s) p
      then Some (String.length p) else None.
Proof.
  induction p as [|k p IH]; intros s Hs.
  { destruct s as [|a s]; [reflexivity|].
    cbn [isASCII] in Hs. apply andb_true_iff in Hs as [Ha _].
    now rewrite (ToLower_ascii a s Ha). }
  destruct s as [|a s]; [reflexivity|].
  cbn [isASCII] in Hs. apply andb_true_iff in Hs as [Ha Hs].
  rewrite (ToLower_ascii a s Ha). cbn [regexp.matchFold strings.HasPrefix].
  destruct (Ascii.eqb (strings.lowerByte a) k).
  - rewrite (IH s Hs). cbn [andb String.length].
    now destruct (strings.HasPrefix (strings.ToLower s) p).
  - cbn [andb]. rewrite (ascii_not_byte a "197" Ha eq_refl), andb_false_r.
    reflexivity.
Qed.

Lemma matchAlt_ascii (alts : list string) (s : string) :
  isASCII s = true ->
  forallb (fun p => 4 <=? String.length p)%nat alts = true ->
  existsb (strings.HasPrefix (strings.ToLower s)) alts
  = match regexp.matchAlt alts s with
    | Some (S _) => true
    | _ => false
    end.
Proof.
  intros Hs. induction alts as [|p alts IH]; intros Hl; [reflexivity|].
  cbn [forallb] in Hl. apply andb_true_iff in Hl as [Hp Hl].
  apply Nat.leb_le in Hp.
  cbn [existsb regexp.matchAlt]. rewrite (matchFold_ascii p s Hs).
  destruct (strings.HasPrefix (strings.ToLower s) p); cbn [orb].
  - destruct (String.length p); [lia | reflexivity].
  - now apply IH.
Qed.

Lemma existsb_orb {A : Type} (f g : A -> bool) (l : list A) :
  existsb (fun x => f x || g x) l = existsb f l || existsb g l.
Proof.
  induction l as [|x l IH]; cbn [existsb]; [reflexivity|].
  rewrite IH. destruct (f x), (g x), (existsb f l), (existsb g l); reflexivity.
Qed.

(** On an ASCII text the classifier's keyword test and the matcher of
    [escapeIdentifier] see the same keywords. *)
Lemma hasKeyword_ascii (s : string) :
  isASCII s = true ->
  hasKeyword s = matchesSomewhere keywordAlternation s.
Proof.
  unfold hasKeyword, ContainsFold.
  induction s as [|a s IH]; intros Hs; [reflexivity|].
  pose proof Hs as Hs'. cbn [isASCII] in Hs'.
  apply andb_true_iff in Hs' as [Ha Hs'].
  cbn [matchesSomewhere].
  pose proof (matchAlt_ascii keywordAlternation (String a s) Hs eq_refl) as Hh.
  rewrite (ToLower_ascii a s Ha) in *.
  transitivity
    (existsb (strings.HasPrefix
                (String (strings.lowerByte a) (strings.ToLower s)))
             keywordAlternation
     || existsb (fun kw => strings.Contains (strings.ToLower s) kw)
                keywordAlternation).
  { rewrite <- existsb_orb. reflexivity. }
  rewrite Hh, (IH Hs').
  now destruct (regexp.matchAlt keywordAlternation (String a s)) as [[|m]|].
Qed.

Lemma HasPrefix_spec (t s : string) :
  strings.HasPrefix t s = true -> exists suf, t = s ++ suf.
Proof.
  revert t. induction s as [|c s IH]; intros t H.
  - now exists t.
  - destruct t as [|a t]; [discriminate|]. cbn [strings.HasPrefix] in H.
    apply andb_true_iff in H as [Hac Ht]. apply Ascii.eqb_eq in Hac. subst c.
    destruct (IH _ Ht) as [suf ->]. now exists suf.
Qed.

Lemma Contains_spec (t s : string) :
  strings.Contains t s = true -> exists pre suf, t = pre ++ s ++ suf.
Proof.
  induction t as [|a t IH]; cbn [strings.Contains]; intros H.
  - rewrite orb_false_r in H. destruct (HasPrefix_spec _ _ H) as [suf ->].
    now exists "", suf.
  - apply orb_true_iff in H as [H|H].
    + destruct (HasPrefix_spec _ _ H) as [suf ->]. now exists "", suf.
    + destruct (IH H) as [pre [suf ->]]. now exists (String a pre), suf.
Qed.

Lemma Contains_absent_replace (old new : string) :
  forall s,
    strings.Contains s old = false -> strings.ReplaceAll s old new = s.
Proof.
  unfold strings.ReplaceAll.
  induction s as [|a s IH]; intros H; [reflexivity|].
  cbn [strings.Contains] in H. apply orb_false_iff in H as [Hp Hc].
  cbn [strings.replaceFrom]. rewrite Hp. now rewrite IH.
Qed.

End AsciiTexts.

Section QuoteDoubling.

Lemma HasPrefix_nil (s : string) : strings.HasPrefix s "" = true.
Proof. now destruct s. Qed.

Lemma doubling_step_quote (e : string) :
  strings.ReplaceAll (String "034" e) dq dqdq
  = String "034" (String "034" (strings.ReplaceAll e dq dqdq)).
Proof.
  unfold strings.ReplaceAll. cbn [strings.replaceFrom].
  unfold dq at 1. cbn [strings.HasPrefix]. rewrite HasPrefix_nil. reflexivity.
Qed.

Lemma doubling_step_other (a : ascii) (e : string) :
  Ascii.eqb a "034" = false ->
  strings.ReplaceAll (String a e) dq dqdq
  = String a (strings.ReplaceAll e dq dqdq).
Proof.
  intros Ha. unfold strings.ReplaceAll. cbn [strings.replaceFrom].
  unfold dq at 1. cbn [strings.HasPrefix]. now rewrite Ha.
Qed.

Lemma doubling_count (e : string) :
  countChar "034" (strings.ReplaceAll e dq dqdq) = 2 * countChar "034" e.
Proof.
  induction e as [|a e IH]; [reflexivity|].
  destruct (Ascii.eqb a "034") eqn:Ea.
  - apply Ascii.eqb_eq in Ea. subst a. rewrite doubling_step_quote.
    cbn [countChar Ascii.eqb Bool.eqb]. rewrite IH. lia.
  - rewrite (doubling_step_other a e Ea). cbn [countChar]. rewrite Ea, IH. lia.
Qed.

Lemma doubling_length (e : string) :
  String.length (strings.ReplaceAll e dq dqdq)
  = String.length e + countChar "034" e.
Proof.
  induction e as [|a e IH]; [reflexivity|].
  destruct (Ascii.eqb a "034") eqn:Ea.
  - apply Ascii.eqb_eq in Ea. subst a. rewrite doubling_step_quote.
    cbn [String.length countChar Ascii.eqb Bool.eqb]. rewrite IH. lia.
  - rewrite (doubling_step_other a e Ea). cbn [String.length countChar].
    rewrite Ea, IH. lia.
Qed.

Lemma doubling_paired (e : string) :
  pairedQuotes (strings.ReplaceAll e dq dqdq) = true.
Proof.
  induction e as [|a e IH]; [reflexivity|].
  destruct (Ascii.eqb a "034") eqn:Ea.
  - apply Ascii.eqb_eq in Ea. subst a. rewrite doubling_step_quote.
    cbn [pairedQuotes Ascii.eqb Bool.eqb andb]. exact IH.
  - rewrite (doubling_step_other a e Ea). cbn [pairedQuotes]. now rewrite Ea.
Qed.

Lemma undoubling_step_pair (t : string) :
  strings.ReplaceAll (String "034" (String "034" t)) dqdq dq
  = String "034" (strings.ReplaceAll t dqdq dq).
Proof.
  unfold strings.ReplaceAll, dqdq, dq. simpl. rewrite HasPrefix_nil. reflexivity.
Qed.

Lemma undoubling_step_other (a : ascii) (t : string) :
  Ascii.eqb a "034" = false ->
  strings.ReplaceAll (String a t) dqdq dq
  = String a (strings.ReplaceAll t dqdq dq).
Proof.
  intros Ha. unfold strings.ReplaceAll, dqdq, dq. simpl. now rewrite Ha.
Qed.

Lemma doubling_undone (e : string) :
  strings.ReplaceAll (strings.ReplaceAll e dq dqdq) dqdq dq = e.
Proof.
  induction e as [|a e IH]; [reflexivity|].
  destruct (Ascii.eqb a "034") eqn:Ea.
  - apply Ascii.eqb_eq in Ea. subst a.
    now rewrite doubling_step_quote, undoubling_step_pair, IH.
  - now rewrite (doubling_step_other a e Ea), (undoubling_step_other _ _ Ea), IH.
Qed.

End QuoteDoubling.

Section SafetyLayer.

Lemma safeIdentifier_routes (s : string) :
  safeIdentifier s = if passes s then s else quoted (escapeIdentifier s).
Proof. reflexivity. Qed.

Lemma escapeIdentifier_count (c : ascii) (s : string) :
  inertChar c = true ->
  countChar c (escapeIdentifier s) = countChar c s.
Proof.
  unfold inertChar. intros H.
  apply andb_true_iff in H as [H Hbf]. apply andb_true_iff in H as [Hocc Hc5].
  apply negb_true_iff in Hbf, Hc5, Hocc.
  pose proof (deleteMatches_count c keywordAlternation Hc5 Hbf Hocc s 0) as Hk.
  rewrite substring_0_0 in Hk. cbn [countChar] in Hk.
  unfold escapeIdentifier. lia.
Qed.

Lemma quoted_count (e : string) :
  countChar "034" (quoted e) = 2 + 2 * countChar "034" e.
Proof.
  unfold quoted. rewrite !countChar_app, doubling_count.
  change (countChar "034" dq) with 1. lia.
Qed.

Lemma quoted_length (e : string) :
  String.length (quoted e) = 2 + String.length e + countChar "034" e.
Proof.
  unfold quoted. rewrite !slength_app, doubling_length.
  change (String.length dq) with 1. lia.
Qed.

Lemma keyword_is_pattern (kw : string) :
  In kw keywordAlternation -> In kw dangerousPatterns.
Proof.
  intros H.
  assert (Hall : forallb (fun k => existsb (String.eqb k) dangerousPatterns)
                         keywordAlternation = true) by (vm_compute; reflexivity).
  rewrite forallb_forall in Hall. specialize (Hall _ H).
  apply existsb_exists in Hall as [p [Hp Heq]].
  apply String.eqb_eq in Heq. now subst.
Qed.

Lemma hasKeyword_not_valid (s : string) :
  hasKeyword s = true -> isValidIdentifier s = false.
Proof.
  unfold hasKeyword, ContainsFold, isValidIdentifier. intros H.
  destruct (String.eqb s ""); [reflexivity|].
  apply negb_false_iff, existsb_exists.
  apply existsb_exists in H as [kw [Hin Hc]].
  exists kw. split; [now apply keyword_is_pattern | exact Hc].
Qed.

Lemma escapeIdentifier_ascii_cases (s : string) :
  isASCII s = true ->
  (hasKeyword s = false -> escapeIdentifier s = s)
  /\ (hasKeyword s = true ->
      String.length (escapeIdentifier s) + 4 <= String.length s).
Proof.
  intros Hs. rewrite (hasKeyword_ascii s Hs). unfold escapeIdentifier. split.
  - apply deleteMatches_id.
  - now apply deleteMatches_shrinks.
Qed.

Lemma allSimple_keepSimple (s : string) : allSimple (regexp.keepSimple s) = true.
Proof.
  induction s as [|a s IH]; [reflexivity|]. cbn [regexp.keepSimple].
  destruct (regexp.isSimpleChar a) eqn:Ea; [|exact IH].
  cbn [allSimple]. now rewrite Ea.
Qed.

Lemma keepSimple_id (s : string) : allSimple s = true -> regexp.keepSimple s = s.
Proof.
  induction s as [|a s IH]; [reflexivity|]. cbn [allSimple regexp.keepSimple].
  intros H. apply andb_true_iff in H as [Ha Hs]. now rewrite Ha, IH.
Qed.

Lemma allSimple_delete (old : string) (s : string) :
  forall k,
    allSimple s = true -> allSimple (strings.replaceFrom k s old "") = true.
Proof.
  induction s as [|a s IH]; intros k H; [reflexivity|].
  cbn [allSimple] in H. apply andb_true_iff in H as [Ha Hs].
  cbn [strings.replaceFrom]. destruct k as [|k]; [|now apply IH].
  destruct (strings.HasPrefix (String a s) old); cbn [append allSimple].
  - now apply IH.
  - rewrite Ha. now apply IH.
Qed.

End SafetyLayer.

Section OnlyDeletes.

Lemma isSubseq_nil (s : string) : isSubseq "" s = true.
Proof. now destruct s. Qed.




End OnlyDeletes.



(** X1.  [escapeIdentifier] deletes keyword letters only: a byte that is
    no letter of a keyword (in either case) and neither byte of U+017F
    occurs in the result as often as in the argument.  Semicolons, dashes,
    quotes, blanks and parentheses of an operator or a join condition all
    come through. *)
Theorem escapeIdentifier_keeps_other_bytes :
  forall (c : ascii) (s : string),
    inertChar c = true ->
    countChar c (escapeIdentifier s) = countChar c s.
Proof.
  intros c s H. unfold inertChar in H.
  apply andb_true_iff in H as [H Hbf]. apply andb_true_iff in H as [Hocc Hc5].
  apply negb_true_iff in Hbf, Hc5, Hocc.
  pose proof (deleteMatches_count c keywordAlternation Hc5 Hbf Hocc s 0) as Hk.
  rewrite substring_0_0 in Hk. cbn [countChar] in Hk.
  unfold escapeIdentifier. lia.
Qed.

Lemma escapeIdentifier_keeps_other_bytes_witness :
  inertChar ";" = true
  /\ countChar ";" (escapeIdentifier "accounts.id = users.account_id; DROP TABLE logs; --")
     = countChar ";" "accounts.id = users.account_id; DROP TABLE logs; --".
Proof.
  split; [reflexivity|].
  apply (escapeIdentifier_keeps_other_bytes ";"); reflexivity.
Defined.

(** X2.  On an ASCII text [escapeIdentifier] returns the text itself when
    no keyword occurs in it in any mix of cases, and a text at least four
    bytes shorter when one does. *)
Theorem escapeIdentifier_on_ascii :
  forall s : string,
    isASCII s = true ->
    (hasKeyword s = false -> escapeIdentifier s = s)
    /\ (hasKeyword s = true ->
        String.length (escapeIdentifier s) + 4 <= String.length s).
Proof.
  intros s Hs. rewrite (hasKeyword_ascii s Hs). unfold escapeIdentifier. split.
  - intros Hnone. now apply deleteMatches_id.
  - intros Hsome. now apply deleteMatches_shrinks.
Qed.

Lemma escapeIdentifier_on_ascii_witness :
  (isASCII "accounts.id = users.account_id" = true
   /\ hasKeyword "accounts.id = users.account_id" = false
   /\ escapeIdentifier "accounts.id = users.account_id"
      = "accounts.id = users.account_id")
  /\ (isASCII "p.created_at" = true
      /\ hasKeyword "p.created_at" = true
      /\ String.length (escapeIdentifier "p.created_at") + 4
         <= String.length "p.created_at").
Proof.
  split; (split; [reflexivity | split; [reflexivity|]]).
  - apply (proj1 (escapeIdentifier_on_ascii "accounts.id = users.account_id" eq_refl)).
    reflexivity.
  - apply (proj2 (escapeIdentifier_on_ascii "p.created_at" eq_refl)).
    reflexivity.
Defined.

(** X3.  [safeIdentifier] returns its argument unchanged only when the
    classifier accepts it and it holds no quote character: the other
    branch always returns a different text. *)
Theorem safeIdentifier_unchanged_only_if_accepted :
  forall s : string,
    safeIdentifier s = s ->
    isValidIdentifier s = true
    /\ strings.Contains s dq = false
    /\ strings.Contains s "'" = false.
Proof.
  intros s H. rewrite safeIdentifier_routes in H.
  destruct (passes s) eqn:Hp.
  - unfold passes in Hp. apply andb_true_iff in Hp as [Hp Hsq].
    apply andb_true_iff in Hp as [Hv Hdq].
    apply negb_true_iff in Hsq, Hdq. auto.
  - exfalso. pose proof (quoted_count (escapeIdentifier s)) as Hc.
    rewrite H, (escapeIdentifier_count "034" s eq_refl) in Hc. lia.
Qed.

Lemma safeIdentifier_unchanged_witness :
  safeIdentifier "users.account_id" = "users.account_id"
  /\ (isValidIdentifier "users.account_id" = true
      /\ strings.Contains "users.account_id" dq = false
      /\ strings.Contains "users.account_id" "'" = false).
Proof.
  split; [reflexivity|].
  apply (safeIdentifier_unchanged_only_if_accepted "users.account_id").
  reflexivity.
Defined.

(** X4.  An identifier that does not pass is returned between two double
    quotes, every double quote inside stands in a pair, and putting single
    quotes back for the pairs gives the keyword-stripped identifier. *)
Theorem safeIdentifier_quoted_form :
  forall s : string,
    passes s = false ->
    exists inner : string,
      safeIdentifier s = dq ++ inner ++ dq
      /\ pairedQuotes inner = true
      /\ strings.ReplaceAll inner dqdq dq = escapeIdentifier s.
Proof.
  intros s Hp. exists (strings.ReplaceAll (escapeIdentifier s) dq dqdq).
  split; [|split].
  - rewrite safeIdentifier_routes, Hp. reflexivity.
  - apply doubling_paired.
  - apply doubling_undone.
Qed.

Lemma safeIdentifier_quoted_form_witness :
  passes ("name" ++ dq ++ "; DROP TABLE users; --") = false
  /\ exists inner : string,
       safeIdentifier ("name" ++ dq ++ "; DROP TABLE users; --") = dq ++ inner ++ dq
       /\ pairedQuotes inner = true
       /\ strings.ReplaceAll inner dqdq dq
          = escapeIdentifier ("name" ++ dq ++ "; DROP TABLE users; --").
Proof.
  split; [reflexivity|].
  apply (safeIdentifier_quoted_form ("name" ++ dq ++ "; DROP TABLE users; --")).
  reflexivity.
Defined.

(** X5.  An ASCII identifier with a keyword inside, in any mix of cases,
    is never written as declared: it is rendered stripped and quoted, and
    the rendering does not contain the declared text. *)
Theorem keyword_identifier_is_never_rendered_intact :
  forall s : string,
    isASCII s = true ->
    hasKeyword s = true ->
    safeIdentifier s = quoted (escapeIdentifier s)
    /\ strings.Contains (safeIdentifier s) s = false.
Proof.
  intros s Hs Hk.
  assert (Hp : passes s = false)
    by (unfold passes; now rewrite (hasKeyword_not_valid s Hk)).
  assert (Hr : safeIdentifier s = quoted (escapeIdentifier s))
    by (now rewrite safeIdentifier_routes, Hp).
  split; [exact Hr|].
  destruct (strings.Contains (safeIdentifier s) s) eqn:Hc; [exfalso|reflexivity].
  apply Contains_spec in Hc as [pre [suf Heq]]. rewrite Hr in Heq.
  pose proof (quoted_count (escapeIdentifier s)) as Hcount.
  pose proof (quoted_length (escapeIdentifier s)) as Hlen.
  rewrite Heq in Hcount, Hlen.
  rewrite !countChar_app in Hcount. rewrite !slength_app in Hlen.
  rewrite (escapeIdentifier_count "034" s eq_refl) in Hcount, Hlen.
  pose proof (proj2 (escapeIdentifier_ascii_cases s Hs) Hk) as Hshort.
  pose proof (countChar_le_length "034" pre).
  pose proof (countChar_le_length "034" suf).
  lia.
Qed.

Lemma keyword_identifier_witness :
  isASCII "p.created_at" = true
  /\ hasKeyword "p.created_at" = true
  /\ (safeIdentifier "p.created_at" = quoted (escapeIdentifier "p.created_at")
      /\ strings.Contains (safeIdentifier "p.created_at") "p.created_at" = false).
Proof.
  split; [reflexivity | split; [reflexivity|]].
  apply (keyword_identifier_is_never_rendered_intact "p.created_at"); reflexivity.
Defined.

(** X6.  [escapeSimpleIdentifier] returns letters, digits, [_], [.] and
    [*] only, whatever it is given. *)
Theorem escapeSimpleIdentifier_allowlist :
  forall s : string, allSimple (escapeSimpleIdentifier s) = true.
Proof.
  intros s. unfold escapeSimpleIdentifier.
  generalize (strings.ToLower (strings.TrimSpace (regexp.keepSimple s))).
  intros lower.
  pose proof (allSimple_keepSimple s) as H. revert H.
  generalize (regexp.keepSimple s).
  generalize ["drop"; "delete"; "insert"; "update"; "create"; "alter";
              "truncate"; "exec"; "execute"].
  intros blacklist.
  induction blacklist as [|kw kws IH]; intros cleaned H; [exact H|].
  cbn [fold_left]. apply IH.
  destruct (strings.Contains lower kw); [|exact H].
  now apply allSimple_delete.
Qed.

(** X7.  [escapeSimpleIdentifier] removes a keyword only as written in
    lower case: a text of letters, digits, [_], [.] and [*] in which no
    keyword occurs in lower case is returned as it is, upper-case keywords
    included. *)
Theorem escapeSimpleIdentifier_is_case_sensitive :
  forall s : string,
    allSimple s = true ->
    existsb (strings.Contains s) keywordAlternation = false ->
    escapeSimpleIdentifier s = s.
Proof.
  intros s Hsimple Hno. unfold escapeSimpleIdentifier.
  rewrite (keepSimple_id s Hsimple).
  generalize (strings.ToLower (strings.TrimSpace s)). intros lower.
  change ["drop"; "delete"; "insert"; "update"; "create"; "alter";
          "truncate"; "exec"; "execute"] with keywordAlternation.
  revert Hno. generalize keywordAlternation. intros blacklist.
  induction blacklist as [|kw kws IH]; intros Hno; [reflexivity|].
  cbn [existsb] in Hno. apply orb_false_iff in Hno as [Hkw Hkws].
  cbn [fold_left]. rewrite (Contains_absent_replace kw "" s Hkw).
  destruct (strings.Contains lower kw); now apply IH.
Qed.

Lemma escapeSimpleIdentifier_case_witness :
  allSimple "DROP_TABLE_users" = true
  /\ existsb (strings.Contains "DROP_TABLE_users") keywordAlternation = false
  /\ escapeSimpleIdentifier "DROP_TABLE_users" = "DROP_TABLE_users".
Proof.
  split; [reflexivity | split; [reflexivity|]].
  apply (escapeSimpleIdentifier_is_case_sensitive "DROP_TABLE_users"); reflexivity.
Defined.

(* ===================================================================== *)
(** ** Further properties: declarations and renderers *)
(* ===================================================================== *)

Section Declarations.

Lemma combine_fst_snd {A B : Type} (l : list (A * B)) :
  combine (map fst l) (map snd l) = l.
Proof.
  induction l as [|[x y] l IH]; cbn [map combine fst snd]; [reflexivity|].
  now rewrite IH.
Qed.

Lemma call_whereClauses (d : Decl) (b : QueryBuilder) :
  whereClauses (call d b) = (whereClauses b ++ declaredWhere d)%list.
Proof.
  destruct b. destruct d; cbn; rewrite ?app_nil_r; try reflexivity.
  unfold Select. now destruct cols.
Qed.

Lemma chain_whereClauses (ds : list Decl) :
  forall b,
    whereClauses (chain ds b) = (whereClauses b ++ declaredWheres ds)%list.
Proof.
  unfold chain, declaredWheres.
  induction ds as [|d ds IH]; intros b; cbn [fold_left flat_map].
  - now rewrite app_nil_r.
  - now rewrite IH, call_whereClauses, <- app_assoc.
Qed.

Lemma call_queryType (d : Decl) (b : QueryBuilder) :
  queryType (call d b)
  = match declaredKind d with
    | Some k => k
    | None => queryType b
    end.
Proof.
  destruct b. destruct d; cbn; try reflexivity.
  unfold Select. now destruct cols.
Qed.

(** The record reaches the text of a trace through the test
    [paramStyle = QuestionMark] only. *)
Lemma render_style (b b' : QueryBuilder) (ps : list piece) :
  (paramStyle b =? QuestionMark)%Z = (paramStyle b' =? QuestionMark)%Z ->
  render b ps = render b' ps.
Proof.
  intros Hstyle.
  induction ps as [|[s|k] ps IH]; cbn [render renderPiece];
    [reflexivity | now rewrite IH | unfold getPlaceholder; now rewrite Hstyle, IH].
Qed.

(** Two records with the same kind, the same writes and the same bound
    values build the same result. *)
Lemma Build_congr (b b' : QueryBuilder) :
  queryType b = queryType b' ->
  trace b = trace b' ->
  (paramStyle b =? QuestionMark)%Z = (paramStyle b' =? QuestionMark)%Z ->
  whereClauses b = whereClauses b' ->
  insertColumns b = insertColumns b' ->
  insertValues b = insertValues b' ->
  updateValues b = updateValues b' ->
  Build b = Build b'.
Proof.
  intros Hk Ht Hs Hw Hic Hiv Huv. unfold Build, trace in *. rewrite <- Hk in *.
  destruct (queryType b).
  - rewrite !buildSelect_spec, Ht, Hw. f_equal. now apply render_style.
  - rewrite !buildInsert_spec, Ht, Hic, Hiv. f_equal. now apply render_style.
  - rewrite !buildUpdate_spec, Ht, Hw, Huv. f_equal. now apply render_style.
  - rewrite !buildDelete_spec, Ht, Hw. f_equal. now apply render_style.
Qed.

End Declarations.

Lemma payload_pairing (data : list (string * Value)) (b : QueryBuilder) :
  queryType (Update data b) = UpdateQuery
  /\ updateColumns (Update data b) = map fst data
  /\ updateValues (Update data b) = map snd data.
Proof.
  destruct b. unfold Update. rewrite appendPairs_spec. cbn. auto.
Qed.


(** X9.  The values of the predicates are bound in the order of the
    [Where] and [OrWhere] calls: they are the parameters of a Select and of
    a Delete, they follow the update values in an Update, and an Insert
    binds none of them. *)
Theorem parameters_follow_the_declarations :
  forall ds : list Decl,
    let b := chain ds NewQueryBuilder in
    whereClauses b = declaredWheres ds
    /\ Params (Build b)
       = match queryType b with
         | SelectQuery | DeleteQuery =>
             map WhereClause.Value (declaredWheres ds)
         | UpdateQuery =>
             (updateValues b ++ map WhereClause.Value (declaredWheres ds))%list
         | InsertQuery =>
             if (0 <? List.length (insertColumns b))%nat
             then insertValues b else []
         end.
Proof.
  intros ds b.
  assert (Hw : whereClauses b = declaredWheres ds)
    by (unfold b; now rewrite chain_whereClauses).
  split; [exact Hw|]. unfold Build. rewrite <- Hw. destruct (queryType b).
  - now rewrite buildSelect_spec.
  - now rewrite buildInsert_spec.
  - now rewrite buildUpdate_spec.
  - now rewrite buildDelete_spec.
Qed.

(** X10.  The statement kind of a builder is the kind of the last call
    among [Select], [Insert], [InsertColumns], [Update], [Set] and
    [Delete]; every other call leaves it as it is. *)
Theorem last_kind_call_wins :
  forall (ds : list Decl) (b : QueryBuilder),
    queryType (chain ds b) = lastKind ds (queryType b).
Proof.
  unfold chain, lastKind. induction ds as [|d ds IH]; intros b; [reflexivity|].
  cbn [fold_left]. now rewrite IH, call_queryType.
Qed.

(** X11.  An Insert build reads the table, the insert columns, the insert
    values and the placeholder style, and nothing else: predicates, joins,
    ordering, limit, offset, alias and update payload declared on the same
    builder leave the result as it is. *)
Theorem insert_reads_its_payload_only :
  forall b b' : QueryBuilder,
    queryType b = InsertQuery ->
    queryType b' = InsertQuery ->
    table b = table b' ->
    insertColumns b = insertColumns b' ->
    insertValues b = insertValues b' ->
    paramStyle b = paramStyle b' ->
    Build b = Build b'.
Proof.
  intros b b' Hk Hk' Ht Hc Hv Hs. unfold Build. rewrite Hk, Hk'.
  rewrite !buildInsert_spec. unfold traceInsert, valuePieces.
  rewrite Ht, Hc, Hv. f_equal. apply render_style. now rewrite Hs.
Qed.

Lemma insert_reads_its_payload_only_witness :
  let b := chain [DTable "users"; DWhere "id" "=" (VInt 1); DOrderBy "name";
                  DLimit 5; DLeftJoin "accounts" "accounts.id = users.id";
                  DInsert [("name", VStr "John"); ("age", VInt 30)]]
                 NewQueryBuilder in
  let b' := chain [DTable "users";
                   DInsert [("name", VStr "John"); ("age", VInt 30)]]
                  NewQueryBuilder in
  queryType b = InsertQuery /\ queryType b' = InsertQuery
  /\ table b = table b' /\ insertColumns b = insertColumns b'
  /\ insertValues b = insertValues b' /\ paramStyle b = paramStyle b'
  /\ Build b = Build b'.
Proof.
  intros b b'. repeat (split; [reflexivity|]).
  apply (insert_reads_its_payload_only b b'); reflexivity.
Defined.

(** X12.  An Update build and a Delete build never write the offset, the
    joins, the table alias or the projected columns: two builders of the
    same kind that agree on table, predicates, ordering, limit, style and
    update payload build the same result. *)
Theorem update_and_delete_ignore_offset_and_joins :
  forall b b' : QueryBuilder,
    queryType b = UpdateQuery \/ queryType b = DeleteQuery ->
    queryType b' = queryType b ->
    table b = table b' ->
    whereClauses b = whereClauses b' ->
    order b = order b' ->
    limit b = limit b' ->
    paramStyle b = paramStyle b' ->
    updateColumns b = updateColumns b' ->
    updateValues b = updateValues b' ->
    Build b = Build b'.
Proof.
  intros b b' Hk Hk' Ht Hw Ho Hl Hs Huc Huv. unfold Build. rewrite Hk'.
  destruct Hk as [Hk|Hk]; rewrite Hk.
  - rewrite !buildUpdate_spec.
    unfold traceUpdate, setPieces, whereTrace, orderTrace, limitTrace.
    rewrite Ht, Hw, Ho, Hl, Huc, Huv. f_equal. apply render_style. now rewrite Hs.
  - rewrite !buildDelete_spec.
    unfold traceDelete, whereTrace, orderTrace, limitTrace.
    rewrite Ht, Hw, Ho, Hl. f_equal. apply render_style. now rewrite Hs.
Qed.

Lemma update_and_delete_ignore_witness :
  let b := chain [DTable "users"; DAs "u"; DSelect ["id"];
                  DLeftJoin "accounts" "accounts.id = users.id"; DOffset 20;
                  DDelete; DWhere "id" "=" (VInt 1); DLimit 1]
                 NewQueryBuilder in
  let b' := chain [DTable "users"; DDelete; DWhere "id" "=" (VInt 1); DLimit 1]
                  NewQueryBuilder in
  (queryType b = UpdateQuery \/ queryType b = DeleteQuery)
  /\ queryType b' = queryType b
  /\ Build b = Build b'.
Proof.
  intros b b'. split; [right; reflexivity | split; [reflexivity|]].
  apply (update_and_delete_ignore_offset_and_joins b b');
    first [reflexivity | right; reflexivity].
Defined.

(** X13.  A limit or an offset that is zero or negative is not written:
    the build is the one of a builder whose limit (offset) is zero. *)
Theorem nonpositive_limit_and_offset_are_omitted :
  forall (b : QueryBuilder) (n : Z),
    (n <= 0)%Z ->
    Build (Limit n b) = Build (Limit 0 b)
    /\ Build (Offset n b) = Build (Offset 0 b).
Proof.
  intros b n Hn. apply Z.ltb_ge in Hn.
  destruct b as [qt t ta c w j o l off ps ic iv uc uv].
  split; apply Build_congr; try reflexivity;
    unfold trace, Limit, Offset, set_limit, set_offset;
    cbn [queryType]; destruct qt;
    unfold traceSelect, traceInsert, traceUpdate, traceDelete,
      limitTrace, offsetTrace;
    cbn [limit offset]; rewrite ?Hn; reflexivity.
Qed.

Lemma nonpositive_limit_witness :
  (-5 <= 0)%Z
  /\ (Build (Limit (-5) (Table "users" NewQueryBuilder))
      = Build (Limit 0 (Table "users" NewQueryBuilder))
      /\ Build (Offset (-5) (Table "users" NewQueryBuilder))
         = Build (Offset 0 (Table "users" NewQueryBuilder))).
Proof.
  split; [lia|].
  apply (nonpositive_limit_and_offset_are_omitted (Table "users" NewQueryBuilder)).
  lia.
Defined.

(** X14.  Every placeholder style other than [QuestionMark] numbers the
    placeholders as [DollarNumber] does. *)
Theorem unknown_style_is_dollar_number :
  forall (style : ParameterStyle) (b : QueryBuilder),
    style <> QuestionMark ->
    Build (ParameterPlaceholder style b)
    = Build (ParameterPlaceholder DollarNumber b).
Proof.
  intros style b Hstyle. apply Z.eqb_neq in Hstyle.
  destruct b as [qt t ta c w j o l off ps ic iv uc uv].
  apply Build_congr; try reflexivity.
  cbn [ParameterPlaceholder set_paramStyle paramStyle]. now rewrite Hstyle.
Qed.

Lemma unknown_style_witness :
  (7%Z <> QuestionMark)
  /\ Build (ParameterPlaceholder 7%Z
              (Where "id" "=" (VInt 1) (Table "users" NewQueryBuilder)))
     = Build (ParameterPlaceholder DollarNumber
                (Where "id" "=" (VInt 1) (Table "users" NewQueryBuilder))).
Proof.
  split; [discriminate|].
  apply (unknown_style_is_dollar_number 7%Z); discriminate.
Defined.

(** X15.  A Delete under [DollarNumber] is [delete from], the table as
    the safety layer writes it, the predicates numbered from [$1] in
    declaration order, then ordering and limit; its parameters are the
    values of the predicates. *)
Theorem delete_numbers_its_predicates_from_one :
  forall b : QueryBuilder,
    queryType b = DeleteQuery ->
    paramStyle b = DollarNumber ->
    Build b
    = mkQuery ("delete from " ++ safeIdentifier (table b)
               ++ whereText (whereClauses b) 1 ++ updateTail b)
              (map WhereClause.Value (whereClauses b)).
Proof.
  intros b Hk Hs. unfold Build. rewrite Hk, buildDelete_spec. f_equal.
  unfold traceDelete, updateTail. cbn [List.app render renderPiece].
  rewrite render_app, (render_whereTrace_text b Hs). reflexivity.
Qed.

Lemma delete_numbers_witness :
  let b := chain [DTable "users"; DDelete; DWhere "id" "=" (VInt 1);
                  DOrWhere "age" "<" (VInt 18)] NewQueryBuilder in
  queryType b = DeleteQuery
  /\ paramStyle b = DollarNumber
  /\ Build b
     = mkQuery ("delete from " ++ safeIdentifier (table b)
                ++ whereText (whereClauses b) 1 ++ updateTail b)
               (map WhereClause.Value (whereClauses b)).
Proof.
  intros b. split; [reflexivity | split; [reflexivity|]].
  apply (delete_numbers_its_predicates_from_one b); reflexivity.
Defined.

(* ===================================================================== *)
(** ** Further properties: the three variants of the package *)
(* ===================================================================== *)

Section Variants.

Lemma passes_safe (s : string) : passes s = true -> safeIdentifier s = s.
Proof. intros H. now rewrite safeIdentifier_routes, H. Qed.

Lemma keywordFree_escape (s : string) :
  keywordFree s = true -> escapeIdentifier s = s.
Proof.
  unfold keywordFree. intros H. apply andb_true_iff in H as [Ha Hk].
  apply negb_true_iff in Hk.
  now apply (proj1 (escapeIdentifier_ascii_cases s Ha)).
Qed.

Lemma alias_plain (query s : string) :
  passesOrEmpty s = true ->
  (if negb (String.eqb s "") then (query ++ " as ") ++ safeIdentifier s
   else query)
  = (if negb (String.eqb s "") then (query ++ " as ") ++ s else query).
Proof.
  unfold passesOrEmpty. destruct (String.eqb s ""); cbn [orb negb];
    [reflexivity|].
  intros H. now rewrite passes_safe.
Qed.

Lemma map_safe (l : list string) :
  forallb passes l = true -> map safeIdentifier l = l.
Proof.
  induction l as [|x l IH]; cbn [forallb map]; [reflexivity|].
  intros H. apply andb_true_iff in H as [Hx Hl].
  now rewrite passes_safe, IH.
Qed.

Variable b : QueryBuilder.

Lemma whereLoop_plain (ws : list WhereClause.t) :
  forallb plainWhere ws = true ->
  forall i query params n,
    whereLoop b ws i query params n = Plain.whereLoop b ws i query params n.
Proof.
  induction ws as [|w ws IH]; intros H i query params n; [reflexivity|].
  cbn [forallb] in H. apply andb_true_iff in H as [Hw Hws].
  unfold plainWhere in Hw. apply andb_true_iff in Hw as [Hc Ho].
  cbn [whereLoop Plain.whereLoop].
  rewrite (passes_safe _ Hc), (keywordFree_escape _ Ho). now apply IH.
Qed.

Lemma writeJoin_plain (j : JoinClause.t) (query : string) :
  plainJoin j = true -> writeJoin query j = Plain.writeJoin query j.
Proof.
  unfold plainJoin, passesOrEmpty, writeJoin, Plain.writeJoin. intros H.
  apply andb_true_iff in H as [H Hc]. apply andb_true_iff in H as [Ht Ha].
  rewrite (passes_safe _ Ht), (keywordFree_escape _ Hc).
  destruct (String.eqb (JoinClause.Alias j) ""); cbn [orb negb] in *;
    [reflexivity|].
  now rewrite (passes_safe _ Ha).
Qed.

Lemma joins_plain (js : list JoinClause.t) :
  forallb plainJoin js = true ->
  forall query,
    fold_left writeJoin js query = fold_left Plain.writeJoin js query.
Proof.
  induction js as [|j js IH]; intros H query; [reflexivity|].
  cbn [forallb] in H. apply andb_true_iff in H as [Hj Hjs].
  cbn [fold_left]. rewrite (writeJoin_plain j query Hj). now apply IH.
Qed.

Lemma setLoop_plain (cols : list string) :
  forallb passes cols = true ->
  forall acc n, setLoop b cols acc n = Plain.setLoop b cols acc n.
Proof.
  induction cols as [|c cols IH]; intros H acc n; [reflexivity|].
  cbn [forallb] in H. apply andb_true_iff in H as [Hc Hcols].
  cbn [setLoop Plain.setLoop]. rewrite (passes_safe _ Hc). now apply IH.
Qed.

Lemma writeWhere_plain (st : string * list Value * nat) :
  forallb plainWhere (whereClauses b) = true ->
  writeWhere b st = Plain.writeWhere b st.
Proof.
  intros H. destruct st as [[query params] n].
  unfold writeWhere, Plain.writeWhere, buildWhereClause,
    Plain.buildWhereClause.
  now rewrite (whereLoop_plain _ H).
Qed.

Lemma writeOrder_plain (query : string) :
  passesOrEmpty (order b) = true ->
  writeOrder b query = Plain.writeOrder b query.
Proof.
  unfold passesOrEmpty, writeOrder, Plain.writeOrder.
  destruct (String.eqb (order b) ""); cbn [orb negb]; [reflexivity|].
  intros H. now rewrite passes_safe.
Qed.

(** A predicate loop started behind a prefix writes behind the prefix
    what it writes when started without it. *)
Lemma plain_whereLoop_prefix (ws : list WhereClause.t) :
  forall i pre query params n,
    Plain.whereLoop b ws i (pre ++ query) params n
    = (pre ++ fst (fst (Plain.whereLoop b ws i query params n)),
       snd (fst (Plain.whereLoop b ws i query params n)),
       snd (Plain.whereLoop b ws i query params n)).
Proof.
  induction ws as [|w ws IH]; intros i pre query params n; [reflexivity|].
  cbn [Plain.whereLoop].
  destruct (0 <? i)%nat; rewrite <- ?sapp_assoc; rewrite <- IH;
    rewrite ?sapp_assoc; reflexivity.
Qed.

End Variants.

(** X16.  Hardening leaves ordinary statements as they were: when every
    declared identifier passes the test of [safeIdentifier] (alias and
    ordering may also be empty) and every operator and join condition is
    an ASCII text without a keyword, the hardened [Build] returns what the
    first variant of the package returns. *)
Theorem hardened_build_agrees_with_plain :
  forall b : QueryBuilder,
    plainTexts b = true -> Build b = Plain.Build b.
Proof.
  intros b H. unfold plainTexts in H.
  apply andb_true_iff in H as [H Hupd]. apply andb_true_iff in H as [H Hins].
  apply andb_true_iff in H as [H Hord]. apply andb_true_iff in H as [H Hjoins].
  apply andb_true_iff in H as [H Hwhere]. apply andb_true_iff in H as [H Hcols].
  apply andb_true_iff in H as [Htable Halias].
  unfold Build, Plain.Build. destruct (queryType b).
  - unfold buildSelect, Plain.buildSelect.
    rewrite (map_safe _ Hcols), (passes_safe _ Htable).
    rewrite (alias_plain _ _ Halias).
    rewrite (joins_plain _ Hjoins), (writeWhere_plain b _ Hwhere).
    destruct (Plain.writeWhere b _) as [[query params] n].
    now rewrite (writeOrder_plain b _ Hord).
  - unfold buildInsert, Plain.buildInsert.
    now rewrite (map_safe _ Hins), (passes_safe _ Htable).
  - unfold buildUpdate, Plain.buildUpdate.
    rewrite (passes_safe _ Htable), (setLoop_plain b _ Hupd).
    destruct (Plain.setLoop b (updateColumns b) [] 0) as [setClauses n].
    rewrite (writeWhere_plain b _ Hwhere).
    destruct (Plain.writeWhere b _) as [[query params] n'].
    now rewrite (writeOrder_plain b _ Hord).
  - unfold buildDelete, Plain.buildDelete.
    rewrite (passes_safe _ Htable), (writeWhere_plain b _ Hwhere).
    destruct (Plain.writeWhere b _) as [[query params] n].
    now rewrite (writeOrder_plain b _ Hord).
Qed.

Lemma hardened_build_agrees_witness :
  let b := chain [DTable "posts"; DAs "p";
                  DSelect ["p.title"; "u.name as author"; "c.name as category"];
                  DLeftJoinAs "users" "u" "u.id = p.user_id";
                  DInnerJoinAs "categories" "c" "c.id = p.category_id";
                  DWhere "p.published" "=" (VBool true);
                  DOrderBy "p.title"; DLimit 10]
                 NewQueryBuilder in
  plainTexts b = true /\ Build b = Plain.Build b.
Proof.
  intros b. split; [reflexivity|].
  apply (hardened_build_agrees_with_plain b). reflexivity.
Defined.

Section SelectOnlyVariant.

Variable sb : SelectOnly.QueryBuilder.

Lemma selectOnly_whereLoop (ws : list WhereClause.t) :
  forall i query params n,
    SelectOnly.whereLoop sb ws i query params n
    = Plain.whereLoop (ofSelectOnly sb) ws i query params n.
Proof.
  induction ws as [|w ws IH]; intros i query params n; [reflexivity|].
  cbn [SelectOnly.whereLoop Plain.whereLoop]. rewrite IH. reflexivity.
Qed.

Lemma selectOnly_Build : SelectOnly.Build sb = Plain.Build (ofSelectOnly sb).
Proof.
  unfold SelectOnly.Build, Plain.Build, Plain.buildSelect, Plain.writeWhere,
    Plain.buildWhereClause, Plain.writeOrder, writeLimit, writeOffset.
  cbn [ofSelectOnly queryType table tableAlias columns whereClauses
       joinClauses order limit offset String.eqb negb fold_left].
  destruct (0 <? List.length (SelectOnly.whereClauses sb))%nat.
  - rewrite selectOnly_whereLoop, plain_whereLoop_prefix.
    destruct (Plain.whereLoop (ofSelectOnly sb) (SelectOnly.whereClauses sb)
                              0 " where " [] 0) as [[query params] n].
    reflexivity.
  - reflexivity.
Qed.

End SelectOnlyVariant.

(** X17.  The builder with joins and four statement kinds runs every
    program of the select-only variant to the same result: the fresh
    builders correspond, each of the eight declaration methods of the
    select-only variant acts on the full record as on the small one, and
    the plain [Build] of the full record returns what the select-only
    [Build] returns. *)
Theorem select_only_variant_is_simulated :
  ofSelectOnly SelectOnly.NewQueryBuilder = NewQueryBuilder
  /\ (forall sb : SelectOnly.QueryBuilder,
         SelectOnly.Build sb = Plain.Build (ofSelectOnly sb))
  /\ (forall (sb : SelectOnly.QueryBuilder) (t o : string) (cols : list string)
             (c op : string) (v : Value) (n : Z) (style : ParameterStyle),
         ofSelectOnly (SelectOnly.Table t sb) = Table t (ofSelectOnly sb)
         /\ ofSelectOnly (SelectOnly.Select cols sb) = Select cols (ofSelectOnly sb)
         /\ ofSelectOnly (SelectOnly.Where c op v sb) = Where c op v (ofSelectOnly sb)
         /\ ofSelectOnly (SelectOnly.OrWhere c op v sb)
            = OrWhere c op v (ofSelectOnly sb)
         /\ ofSelectOnly (SelectOnly.OrderBy o sb) = OrderBy o (ofSelectOnly sb)
         /\ ofSelectOnly (SelectOnly.Limit n sb) = Limit n (ofSelectOnly sb)
         /\ ofSelectOnly (SelectOnly.Offset n sb) = Offset n (ofSelectOnly sb)
         /\ ofSelectOnly (SelectOnly.ParameterPlaceholder style sb)
            = ParameterPlaceholder style (ofSelectOnly sb)).
Proof.
  split; [reflexivity|]. split; [apply selectOnly_Build|].
  intros sb t o cols c op v n style. destruct sb as [t0 c0 w0 o0 l0 off0 ps0].
  repeat split; try reflexivity.
  unfold SelectOnly.Select, Select. now destruct cols.
Qed.

Section UpdatePayload.

Lemma chain_sets (sets : list (string * Value)) :
  forall b,
    updateColumns (chain (map (fun p => DSet (fst p) (snd p)) sets) b)
    = (updateColumns b ++ map fst sets)%list
    /\ updateValues (chain (map (fun p => DSet (fst p) (snd p)) sets) b)
       = (updateValues b ++ map snd sets)%list
    /\ (sets <> [] ->
        queryType (chain (map (fun p => DSet (fst p) (snd p)) sets) b)
        = UpdateQuery).
Proof.
  unfold chain. induction sets as [|[c v] sets IH]; intros b.
  - cbn. rewrite !app_nil_r. repeat split. congruence.
  - cbn [map fold_left fst snd call]. destruct (IH (Set_ c v b)) as [Hc [Hv Hk]].
    rewrite Hc, Hv. destruct b. cbn. rewrite <- !app_assoc. repeat split.
    intros _. destruct sets as [|p sets]; [reflexivity|].
    apply Hk. discriminate.
Qed.

Lemma combine_app_paired {A B : Type} (l1 l2 : list A) (r1 r2 : list B) :
  List.length l1 = List.length r1 ->
  combine (l1 ++ l2) (r1 ++ r2) = (combine l1 r1 ++ combine l2 r2)%list.
Proof.
  revert r1. induction l1 as [|x l1 IH]; intros [|y r1] H; cbn in *;
    try discriminate; [reflexivity|].
  injection H as H. now rewrite IH.
Qed.

End UpdatePayload.

(** X18.  [Update] starts the update payload afresh and every later [Set]
    adds one column with its value at the end: after [Update data] and the
    calls [Set c1 v1], ..., [Set cn vn], whatever was declared before, the
    payload pairs are the entries of [data] followed by [(c1, v1)], ...,
    [(cn, vn)], and the statement is an Update. *)
Theorem update_then_sets_payload :
  forall (ds : list Decl) (data sets : list (string * Value)),
    let b := chain (ds ++ DUpdate data
                       :: map (fun p => DSet (fst p) (snd p)) sets)
                   NewQueryBuilder in
    queryType b = UpdateQuery
    /\ combine (updateColumns b) (updateValues b) = (data ++ sets)%list.
Proof.
  intros ds data sets b. unfold b. rewrite chain_app.
  change (chain (DUpdate data :: map (fun p => DSet (fst p) (snd p)) sets)
                (chain ds NewQueryBuilder))
    with (chain (map (fun p => DSet (fst p) (snd p)) sets)
                (Update data (chain ds NewQueryBuilder))).
  destruct (chain_sets sets (Update data (chain ds NewQueryBuilder)))
    as [Hc [Hv Hk]].
  rewrite Hc, Hv.
  destruct (payload_pairing data (chain ds NewQueryBuilder)) as [Hq [Hcols Hvals]].
  rewrite Hcols, Hvals. split.
  - destruct sets as [|p sets]; [exact Hq | apply Hk; discriminate].
  - rewrite combine_app_paired by now rewrite !length_map.
    now rewrite !combine_fst_snd.
Qed.
